(** * Export Master Artwork: a shallow embedding of export_master_artwork.jsx

    The script drives a host object model (document, layers, page items,
    spot colours, artboards).  The embedding keeps the document tree as an
    immutable value, keeps the two kinds of flags the script mutates
    (layer [visible], item [hidden]) in an explicit state, and threads that
    state through the functions in the order the script performs its
    assignments.

    Numbers are JavaScript numbers: a finite number is the rational it
    denotes, and the result of every arithmetic operation, of every decimal
    literal and of [parseFloat] is rounded to binary64 (to nearest, ties to
    even, overflow to the infinities).  The sign of zero is not modelled.
    Strings are sequences of code units below 256. *)

From Stdlib Require Import String Ascii QArith Sorted DecimalString.
From stdpp Require Import base strings list gmap.

Local Open Scope string_scope.
Set Warnings "-register-all,-clear-no-such-hyp".

(** ** JavaScript primitives used by the script *)

Module JS.

(** [\s] on code units below 256: tab, line feed, vertical tab, form feed,
    carriage return, space and no-break space. *)
Definition isWhitespace (c : ascii) : bool :=
  let n := nat_of_ascii c in
  ((9 <=? n)%nat && (n <=? 13)%nat) || (n =? 32)%nat || (n =? 160)%nat.

(** [\d] *)
Definition isDigit (c : ascii) : bool :=
  let n := nat_of_ascii c in (48 <=? n)%nat && (n <=? 57)%nat.

Fixpoint trimStart (s : string) : string :=
  match s with
  | "" => ""
  | String c s' => if isWhitespace c then trimStart s' else s
  end.

Fixpoint trimEnd (s : string) : string :=
  match s with
  | "" => ""
  | String c s' =>
      match trimEnd s' with
      | "" => if isWhitespace c then "" else String c ""
      | t => String c t
      end
  end.

(** [s.replace(/^\s+|\s+$/g, '')] *)
Definition trim (s : string) : string := trimEnd (trimStart s).

(** The lower-case form of a code unit below 256: the letters A to Z and the
    accented capitals from 192 to 222, the multiplication sign 215 apart,
    move up by 32. *)
Definition lowerChar (c : ascii) : ascii :=
  let n := nat_of_ascii c in
  if ((65 <=? n)%nat && (n <=? 90)%nat) ||
     ((192 <=? n)%nat && (n <=? 222)%nat && negb (n =? 215)%nat)
  then ascii_of_nat (n + 32) else c.

(** [s.toLowerCase()] *)
Fixpoint toLowerCase (s : string) : string :=
  match s with
  | "" => ""
  | String c s' => String (lowerChar c) (toLowerCase s')
  end.

(** [s.indexOf(pat)]; [None] stands for [-1]. *)
Definition indexOf (s pat : string) : option nat := String.index 0 pat s.

Fixpoint allDigits (s : string) : bool :=
  match s with
  | "" => true
  | String c s' => isDigit c && allDigits s'
  end.

(** [/^\d+$/.test(s)] *)
Definition matchesDigits (s : string) : bool :=
  negb (s =? "") && allDigits s.

(** [/^\d+x\d+$/.test(s)]; [seen] records that a digit has been read. *)
Fixpoint matchesWxHFrom (seen : bool) (s : string) : bool :=
  match s with
  | "" => false
  | String c s' =>
      if isDigit c then matchesWxHFrom true s'
      else if Ascii.eqb c "x" then seen && matchesDigits s'
      else false
  end.

Definition matchesWxH (s : string) : bool := matchesWxHFrom false s.

(** [s.split('x')] *)
Fixpoint split_x (s : string) : list string :=
  match s with
  | "" => [""]
  | String c s' =>
      if Ascii.eqb c "x" then "" :: split_x s'
      else match split_x s' with
           | h :: t => String c h :: t
           | [] => [String c ""]
           end
  end.

(** A JavaScript number. *)
Inductive number : Type :=
| NaN
| NegInfinity
| Finite (q : Q)
| Infinity.

(** Nearest integer to [n / d], ties to even, for [0 <= n] and [0 < d]. *)
Definition roundHalfEven (n d : Z) : Z :=
  let q := (n / d)%Z in
  let r := (n mod d)%Z in
  match (2 * r ?= d)%Z with
  | Lt => q
  | Gt => (q + 1)%Z
  | Eq => if Z.even q then q else (q + 1)%Z
  end.

(** The binary64 number nearest to the rational [x], ties to even.  An
    integer of magnitude up to [2^53] is a binary64 number as it stands.
    Otherwise [E] is the binary exponent of [|x|], that is
    [2^E <= |x| < 2^(E+1)]; the number is [m * 2^e] with [e = E - 52], or
    [-1074] for the subnormal numbers, and [m] the integer nearest to
    [|x| / 2^e], which has 53 bits at most; a magnitude that rounds to
    [2^1024] or more gives an infinity. *)
Definition round64 (x : Q) : number :=
  let n := Qnum x in
  let d := Zpos (Qden x) in
  if ((d =? 1) && (Z.abs n <=? 2 ^ 53))%Z then Finite x
  else
    let a := Z.abs n in
    let k := (Z.log2 a - Z.log2 d)%Z in
    let E := if (if (0 <=? k)%Z then (d * 2 ^ k <=? a)%Z
                 else (d <=? a * 2 ^ (- k))%Z)
             then k else (k - 1)%Z in
    let e := Z.max (E - 52) (-1074) in
    let m := if (0 <=? e)%Z then roundHalfEven a (d * 2 ^ e)
             else roundHalfEven (a * 2 ^ (- e)) d in
    if (2 ^ 1024 <=? (if (0 <=? e)%Z then m * 2 ^ e else 0))%Z
    then (if (0 <=? n)%Z then Infinity else NegInfinity)
    else
      let v := if (0 <=? e)%Z then inject_Z (m * 2 ^ e)
               else Qred (Qmake m (Z.to_pos (2 ^ (- e)))) in
      Finite (if (0 <=? n)%Z then v else Qopp v).

(** The number a decimal literal of the source denotes. *)
Definition literal (x : Q) : number := round64 x.

(** The operand of an arithmetic operation: a finite number stands for the
    binary64 number nearest to it, which is the number itself when it is a
    binary64 number already. *)
Definition operand (a : number) : number :=
  match a with
  | Finite x => round64 x
  | other => other
  end.

Definition num_add (a b : number) : number :=
  match operand a, operand b with
  | NaN, _ | _, NaN => NaN
  | Finite x, Finite y => round64 (x + y)
  | Infinity, NegInfinity | NegInfinity, Infinity => NaN
  | Infinity, _ | _, Infinity => Infinity
  | NegInfinity, _ | _, NegInfinity => NegInfinity
  end.

Definition num_neg (a : number) : number :=
  match a with
  | NaN => NaN
  | NegInfinity => Infinity
  | Finite x => Finite (- x)
  | Infinity => NegInfinity
  end.

Definition num_sub (a b : number) : number := num_add a (num_neg b).

(** [a / d] for a positive integer literal [d] (the script divides by 2 and
    by 72 only). *)
Definition num_div (a : number) (d : Q) : number :=
  match operand a with
  | Finite x => round64 (x / d)
  | other => other
  end.

(** [a * k] for a positive integer literal [k] (the script multiplies by 100
    only). *)
Definition num_mul (a : number) (k : Q) : number :=
  match operand a with
  | Finite x => round64 (x * k)
  | other => other
  end.

(** [a < b] *)
Definition num_ltb (a b : number) : bool :=
  match a, b with
  | NaN, _ | _, NaN => false
  | _, NegInfinity => false
  | Infinity, _ => false
  | NegInfinity, _ => true
  | _, Infinity => true
  | Finite x, Finite y => negb (Qle_bool y x)
  end.

(** [a > b] *)
Definition num_gtb (a b : number) : bool := num_ltb b a.

(** [a === Infinity] *)
Definition isInfinity (a : number) : bool :=
  match a with Infinity => true | _ => false end.

Definition digitValue (c : ascii) : N := N.of_nat (nat_of_ascii c - 48).

(** Value of a run of decimal digits, most significant first. *)
Fixpoint digitsValueFrom (acc : N) (s : string) : N :=
  match s with
  | "" => acc
  | String c s' => digitsValueFrom (10 * acc + digitValue c) s'
  end.

Definition digitsValue (s : string) : N := digitsValueFrom 0 s.

Fixpoint leadingDigits (s : string) : string :=
  match s with
  | "" => ""
  | String c s' => if isDigit c then String c (leadingDigits s') else ""
  end.

(** [parseFloat(s)] on the strings the script passes to it, which are runs of
    digits: the binary64 number nearest to the value of the leading digit
    run, [NaN] when there is none. *)
Definition parseFloat (s : string) : number :=
  match leadingDigits s with
  | "" => NaN
  | d => round64 (inject_Z (Z.of_N (digitsValue d)))
  end.

(** What a [try] block produced: a value, or a raised error. *)
Inductive result (A : Type) : Type :=
| Ok (a : A)
| Throw.
Arguments Ok {A} a.
Arguments Throw {A}.

End JS.

Import JS.

(** ** CONFIG *)

Record sizeEntry : Type := {
  sizeGroup : string;
  bleedWidth : Q;
  bleedHeight : Q;
  templateGroup : option string
}.

Definition exportPPI : Q := 1400.

(** The own properties of [CONFIG.sizeMapping], in source order; the bleed
    sizes are the decimal literals of the source. *)
Definition sizeMapping : list (string * sizeEntry) :=
  [ ("35",  {| sizeGroup := "79x90";  bleedWidth := 85.04; bleedHeight := 95.67;  templateGroup := None |});
    ("55",  {| sizeGroup := "79x91";  bleedWidth := 85.04; bleedHeight := 97.09;  templateGroup := None |});
    ("75",  {| sizeGroup := "79x94";  bleedWidth := 85.04; bleedHeight := 99.21;  templateGroup := None |});
    ("100", {| sizeGroup := "79x95";  bleedWidth := 85.04; bleedHeight := 100.63; templateGroup := None |});
    ("130", {| sizeGroup := "79x98";  bleedWidth := 85.04; bleedHeight := 103.46; templateGroup := None |});
    ("180", {| sizeGroup := "79x101"; bleedWidth := 85.04; bleedHeight := 106.30; templateGroup := None |});
    ("54x72", {| sizeGroup := "54x72"; bleedWidth := 57; bleedHeight := 75; templateGroup := Some "Top Loader" |});
    ("toploader-narrow", {| sizeGroup := "54x72"; bleedWidth := 57; bleedHeight := 75; templateGroup := Some "Top Loader" |});
    ("76x102", {| sizeGroup := "76x102"; bleedWidth := 79; bleedHeight := 105; templateGroup := Some "Top Loader" |});
    ("64x79", {| sizeGroup := "64x79"; bleedWidth := 67; bleedHeight := 82; templateGroup := Some "Top Loader" |});
    ("toploader-wide", {| sizeGroup := "76x102"; bleedWidth := 79; bleedHeight := 105; templateGroup := Some "Top Loader" |}) ].

(** The own property [key] of the table, if it has one. *)
Fixpoint lookupMapping (table : list (string * sizeEntry)) (key : string)
  : option sizeEntry :=
  match table with
  | [] => None
  | (k, e) :: rest => if k =? key then Some e else lookupMapping rest key
  end.

(** The members every object inherits from [Object.prototype] (ECMA-262,
    3rd edition, 15.2.4).  [CONFIG.sizeMapping[key]] yields one of them when
    the table has no own property [key]; each is a function object, which
    the test [if (mapping)] takes for an entry of the table. *)
Definition inheritedMembers : list string :=
  [ "constructor"; "toString"; "toLocaleString"; "valueOf";
    "hasOwnProperty"; "isPrototypeOf"; "propertyIsEnumerable" ].

Definition inheritedMember (key : string) : bool :=
  existsb (String.eqb key) inheritedMembers.

Definition cutContourPatterns : list string :=
  [ "cutcontour"; "cut contour"; "dieline"; "die line"; "diecut"; "die cut";
    "kiss cut"; "kisscut"; "contour"; "thru-cut"; "thru cut"; "throughcut";
    "through cut"; "perf"; "score" ].

(** ** Size resolution (the head of the loop body of exportByLayers) *)

(** What the head of the loop body makes of a trimmed layer name: an output
    name and a bleed size, from the table or from the name itself; a member
    the table object inherits, whose [sizeGroup], [bleedWidth] and
    [bleedHeight] are [undefined]; a thickness the table lacks; or a name
    that is passed over. *)
Inductive resolution : Type :=
| Resolved (outputName : string) (bleedW bleedH : number)
| ResolvedInherited
| SkippedUnmapped
| Ignored.

Definition resolveSize (layerName : string) : resolution :=
  match lookupMapping sizeMapping layerName with
  | Some mapping =>
      Resolved (sizeGroup mapping)
               (literal (bleedWidth mapping)) (literal (bleedHeight mapping))
  | None =>
      if inheritedMember layerName then ResolvedInherited
      else if matchesWxH layerName then
        let parts := split_x layerName in
        Resolved layerName
                 (num_add (parseFloat (nth 0 parts "")) (Finite 6))
                 (num_add (parseFloat (nth 1 parts "")) (Finite 6))
      else if matchesDigits layerName then SkippedUnmapped
      else Ignored
  end.

(** ** The document tree *)

Inductive typeName : Type :=
| PathItem
| CompoundPathItem
| GroupItem
| OtherItem.   (* TextFrame, PlacedItem, RasterItem, ... *)

(** A colour object.  Only its [typename] and, for a spot colour, the result
    of reading [spot.name] are inspected; the read may raise. *)
Inductive color : Type :=
| SpotColor (spotName : result string)
| OtherColor.   (* RGBColor, CMYKColor, GrayColor, NoColor, ... *)

(** [geometricBounds]: [left, top, right, bottom], four finite numbers as the
    host reports them. *)
Definition box : Type := (Q * Q * Q * Q)%type.

(** A page item.  [itemId] is the identity of the host object: two references
    to the same object carry the same [itemId].  Reading [strokeColor],
    [fillColor] or [geometricBounds] may raise; [None] is a missing
    (falsy) colour property. *)
Inductive item : Type := Item {
  itemId : nat;
  name : string;
  typename : typeName;
  stroked : bool;
  strokeColor : result (option color);
  filled : bool;
  fillColor : result (option color);
  geometricBounds : result box;
  pageItems : list item
}.

Record layer : Type := {
  layerName : string;
  layerItems : list item
}.

(** [doc.layers] *)
Definition document : Type := list layer.

(** The flags the script mutates: the indices of the layers whose [visible]
    is true, and the identities of the items whose [hidden] is true. *)
Record docState : Type := {
  visible : gset nat;
  hidden : gset nat
}.

Definition isHidden (h : gset nat) (it : item) : bool :=
  bool_decide (itemId it ∈ h).

Definition isVisible (v : gset nat) (j : nat) : bool :=
  bool_decide (j ∈ v).

(** [doc.layers[j].visible = b] *)
Definition setVisible (j : nat) (b : bool) (v : gset nat) : gset nat :=
  if b then {[j]} ∪ v else v ∖ {[j]}.

(** ** Cut-contour classification *)

Definition isCutContourName (nm : string) : bool :=
  if nm =? "" then false
  else
    let lowerName := toLowerCase nm in
    existsb (fun pat => match indexOf lowerName pat with
                        | Some _ => true
                        | None => false
                        end) cutContourPatterns.

(** One of the two inner [if] statements of the [try] block:
    [if (item.stroked && item.strokeColor) { ... }].  [Ok true] means the
    [return true] was reached, [Ok false] that control fell through. *)
Definition inspectColor (enabled : bool) (c : result (option color))
  : result bool :=
  if enabled then
    match c with
    | Throw => Throw
    | Ok None => Ok false
    | Ok (Some OtherColor) => Ok false
    | Ok (Some (SpotColor (Ok spot))) => Ok (isCutContourName spot)
    | Ok (Some (SpotColor Throw)) => Throw
    end
  else Ok false.

(** The body of the [try] block of shouldHideItem. *)
Definition inspectColors (it : item) : result bool :=
  match typename it with
  | PathItem | CompoundPathItem =>
      match inspectColor (stroked it) (strokeColor it) with
      | Throw => Throw
      | Ok true => Ok true
      | Ok false => inspectColor (filled it) (fillColor it)
      end
  | _ => Ok false
  end.

(** [item.name && isCutContourName(item.name)] *)
Definition nameIsCutContour (it : item) : bool :=
  negb (name it =? "") && isCutContourName (name it).

Definition shouldHideItem (it : item) : bool :=
  if nameIsCutContour it then true
  else
    match inspectColors it with
    | Ok true => true
    | Ok false | Throw =>     (* [catch (e) {}] *)
        match typename it with
        | GroupItem => if nameIsCutContour it then true else false
        | _ => false
        end
    end.

(** ** Hide traversal and restore *)

(** The traversal state: the [hidden] flags and the [hiddenItems] ledger. *)
Definition hideState : Type := (gset nat * list item)%type.

(** The body of the [for] loop, which hideAllCutContourItems and
    hideAllCutContourItemsInGroup share word for word. *)
Fixpoint hideStep (it : item) (st : hideState) : hideState :=
  if isHidden st.1 it then st
  else if shouldHideItem it then ({[itemId it]} ∪ st.1, (st.2 ++ [it])%list)
  else
    match typename it with
    | GroupItem =>
        (fix loop (l : list item) (st : hideState) : hideState :=
           match l with
           | [] => st
           | x :: rest => loop rest (hideStep x st)
           end) (pageItems it) st
    | _ => st
    end.

Definition hideLoop (items : list item) (st : hideState) : hideState :=
  fold_left (fun st x => hideStep x st) items st.

Definition hideAllCutContourItemsInGroup (group : item) (st : hideState)
  : hideState :=
  hideLoop (pageItems group) st.

Definition hideAllCutContourItems (container : layer) (st : hideState)
  : hideState :=
  hideLoop (layerItems container) st.

Definition restoreItems (items : list item) (h : gset nat) : gset nat :=
  fold_left (fun h it => h ∖ {[itemId it]}) items h.

(** ** Bounds *)

Record boundsObj : Type := {
  bLeft : number;
  bTop : number;
  bRight : number;
  bBottom : number
}.

(** The four comparisons of the [try] block of collectBoundsRecursive, once
    [b = item.geometricBounds] has been read. *)
Definition includeBox (b : box) (acc : boundsObj) : boundsObj :=
  let '(b0, b1, b2, b3) := b in
  {| bLeft := if num_ltb (Finite b0) (bLeft acc) then Finite b0 else bLeft acc;
     bTop := if num_gtb (Finite b1) (bTop acc) then Finite b1 else bTop acc;
     bRight := if num_gtb (Finite b2) (bRight acc) then Finite b2 else bRight acc;
     bBottom := if num_ltb (Finite b3) (bBottom acc) then Finite b3 else bBottom acc |}.

(** The body of the [for] loop of collectBoundsRecursive. *)
Definition collectStep (h : gset nat) (acc : boundsObj) (it : item)
  : boundsObj :=
  if isHidden h it then acc
  else
    match geometricBounds it with
    | Throw => acc      (* [catch (e) {}] *)
    | Ok b => includeBox b acc
    end.

Definition collectBoundsRecursive (items : list item) (h : gset nat)
    (acc : boundsObj) : boundsObj :=
  fold_left (collectStep h) items acc.

Definition emptyBounds : boundsObj :=
  {| bLeft := Infinity; bTop := NegInfinity;
     bRight := NegInfinity; bBottom := Infinity |}.

(** [None] is [null]; the array is [left, top, right, bottom]. *)
Definition getLayerBounds (l : layer) (h : gset nat)
  : option (number * number * number * number) :=
  if (length (layerItems l) =? 0)%nat then None
  else
    let b := collectBoundsRecursive (layerItems l) h emptyBounds in
    if isInfinity (bLeft b) then None
    else Some (bLeft b, bTop b, bRight b, bBottom b).

(** ** The export orchestrator *)

(** What [doc.exportFile] is asked to write.  With [artBoardClipping] set, the
    exported region is the active artboard, which at the call is the
    temporary artboard [reqArtboard]. *)
Record exportRequest : Type := {
  reqFilename : string;
  reqPath : string;
  reqArtboard : number * number * number * number;
  reqScale : number
}.

(** One call of [doc.exportFile]: the index of the layer being exported, the
    request, the flags of the document at the call, and the status the
    renderer reported. *)
Record exportEvent : Type := {
  evLayer : nat;
  evRequest : exportRequest;
  evFlags : docState;
  evStatus : bool
}.

(** The variables of exportByLayers that the loop updates, with the document
    flags and the trace of export calls. *)
Record loopVars : Type := {
  flags : docState;
  exported : nat;
  results : list string;
  hiddenItemsTotal : nat;
  exportLog : list exportEvent
}.

(** What exportByLayers leaves behind: the returned object, the document
    flags, the export calls made, and whether the "no layers found" alert
    was shown. *)
Record runOutcome : Type := {
  retExported : nat;
  retHiddenItems : nat;
  retDetails : list string;
  finalFlags : docState;
  exportCalls : list exportEvent;
  alerted : bool
}.

(** [for (j ...) doc.layers[j].visible = (j === i)] *)
Definition showOnly (n i : nat) (v : gset nat) : gset nat :=
  fold_left (fun v j => setVisible j (j =? i)%nat v) (seq 0 n) v.

(** [for (i ...) originalVisibility.push(doc.layers[i].visible)] *)
Definition saveVisibility (n : nat) (v : gset nat) : list bool :=
  isVisible v <$> seq 0 n.

(** [for (i ...) doc.layers[i].visible = originalVisibility[i]] *)
Definition restoreVisibility (n : nat) (originalVisibility : list bool)
    (v : gset nat) : gset nat :=
  fold_left (fun v i => setVisible i (default false (originalVisibility !! i)) v)
            (seq 0 n) v.

Definition exportScale : number :=
  num_mul (num_div (Finite exportPPI) 72) 100.

(** The rectangle of the temporary artboard: the centre of the content
    bounds [c0, c1, c2, c3], half the bleed size to each side. *)
Definition artboardRect (c0 c1 c2 c3 bw bh : number)
  : number * number * number * number :=
  let centerX := num_div (num_add c0 c2) 2 in
  let centerY := num_div (num_add c1 c3) 2 in
  (num_sub centerX (num_div bw 2), num_add centerY (num_div bh 2),
   num_add centerX (num_div bw 2), num_sub centerY (num_div bh 2)).

Section Orchestrator.

(** The renderer behind [doc.exportFile]: it sees the document flags and the
    request and reports a status, which the script does not read. *)
Variable exportFile : docState -> exportRequest -> bool.

(** The host's conversion of a number to a string in [+] with a string. *)
Variable numToString : number -> string.

(** [exportFolder.fsName] *)
Variable exportFolder : string.

(** The loop body from the hiding of the other layers on, for layer [i] of
    [n] with trimmed name [nm]: [outputName], [bwText] and [bhText] are what
    [outputName], [bleedWidth] and [bleedHeight] give in a string
    concatenation, [bw] and [bh] what the bleed sizes give in arithmetic. *)
Definition exportResolved (n i : nat) (l : layer) (rs : loopVars)
    (nm outputName : string) (bw bh : number) (bwText bhText : string)
  : loopVars :=
  let v1 := showOnly n i (visible (flags rs)) in
  let st := hideAllCutContourItems l (hidden (flags rs), []) in
  let h1 := st.1 in
  let hiddenItems := st.2 in
  let total := (hiddenItemsTotal rs + length hiddenItems)%nat in
  match getLayerBounds l h1 with
  | None =>
      {| flags := {| visible := v1; hidden := restoreItems hiddenItems h1 |};
         exported := exported rs;
         results := (results rs ++ [nm +:+ ": SKIPPED (empty layer)"])%list;
         hiddenItemsTotal := total;
         exportLog := exportLog rs |}
  | Some (c0, c1, c2, c3) =>
      let filename := outputName +:+ ".png" in
      let request :=
        {| reqFilename := filename;
           reqPath := exportFolder +:+ "/" +:+ filename;
           reqArtboard := artboardRect c0 c1 c2 c3 bw bh;
           reqScale := exportScale |} in
      let atCall := {| visible := v1; hidden := h1 |} in
      let event :=
        {| evLayer := i; evRequest := request; evFlags := atCall;
           evStatus := exportFile atCall request |} in
      {| flags := {| visible := v1; hidden := restoreItems hiddenItems h1 |};
         exported := S (exported rs);
         results := (results rs ++
                     [nm +:+ " -> " +:+ outputName +:+ ".png (" +:+ bwText
                         +:+ "x" +:+ bhText +:+ "pt with bleed)"])%list;
         hiddenItemsTotal := total;
         exportLog := (exportLog rs ++ [event])%list |}
  end.

(** The body of the main loop, for layer [i] of [n].  When the table object
    answers with an inherited member, the three fields read from it are
    [undefined]: the text ["undefined"] in a concatenation, [NaN] in
    arithmetic. *)
Definition processLayer (n i : nat) (l : layer) (rs : loopVars) : loopVars :=
  let nm := trim (layerName l) in
  match resolveSize nm with
  | Ignored => rs
  | SkippedUnmapped =>
      {| flags := flags rs;
         exported := exported rs;
         results := (results rs ++ [nm +:+ ": SKIPPED (not in size mapping)"])%list;
         hiddenItemsTotal := hiddenItemsTotal rs;
         exportLog := exportLog rs |}
  | Resolved outputName bw bh =>
      exportResolved n i l rs nm outputName bw bh
                     (numToString bw) (numToString bh)
  | ResolvedInherited =>
      exportResolved n i l rs nm "undefined" NaN NaN "undefined" "undefined"
  end.

Fixpoint layerLoop (n i : nat) (rest : list layer) (rs : loopVars) : loopVars :=
  match rest with
  | [] => rs
  | l :: rest' => layerLoop n (S i) rest' (processLayer n i l rs)
  end.

Definition exportByLayers (doc : document) (s : docState) : runOutcome :=
  let n := length doc in
  let originalVisibility := saveVisibility n (visible s) in
  let rs := layerLoop n 0 doc
              {| flags := s; exported := 0; results := [];
                 hiddenItemsTotal := 0; exportLog := [] |} in
  {| retExported := exported rs;
     retHiddenItems := hiddenItemsTotal rs;
     retDetails := results rs;
     finalFlags := {| visible := restoreVisibility n originalVisibility
                                                   (visible (flags rs));
                      hidden := hidden (flags rs) |};
     exportCalls := exportLog rs;
     alerted := (exported rs =? 0)%nat |}.

End Orchestrator.

(** ** Product type detection *)

Record detected : Type := {
  hasOneTouch : bool;
  hasTopLoaderNarrow : bool;
  hasTopLoaderWide : bool
}.

Definition oneTouchLayers : list string :=
  [ "35"; "55"; "75"; "100"; "130"; "180" ].

(** [/^79x\d+$/.test(s)] *)
Definition oneTouchPattern (s : string) : bool :=
  match s with
  | String "7" (String "9" (String "x" rest)) => matchesDigits rest
  | _ => false
  end.

(** The body of the loop of detectProductType. *)
Definition detectStep (d : detected) (l : layer) : detected :=
  let nm := toLowerCase (trim (layerName l)) in
  let ot1 := if existsb (String.eqb nm) oneTouchLayers then true
             else hasOneTouch d in
  let ot2 := if oneTouchPattern nm then true else ot1 in
  let narrow :=
    if (nm =? "54x72") || (nm =? "toploader-narrow") || (nm =? "toploader_narrow")
    then true else hasTopLoaderNarrow d in
  let wide :=
    if (nm =? "76x102") || (nm =? "64x79") || (nm =? "toploader-wide")
       || (nm =? "toploader_wide")
    then true else hasTopLoaderWide d in
  {| hasOneTouch := ot2; hasTopLoaderNarrow := narrow; hasTopLoaderWide := wide |}.

(** [None] is [null]. *)
Definition detectProductType (doc : document) : option string :=
  let d := fold_left detectStep doc
             {| hasOneTouch := false; hasTopLoaderNarrow := false;
                hasTopLoaderWide := false |} in
  if hasTopLoaderNarrow d && negb (hasTopLoaderWide d) && negb (hasOneTouch d)
  then Some "toploader-narrow"
  else if hasTopLoaderWide d && negb (hasTopLoaderNarrow d) && negb (hasOneTouch d)
  then Some "toploader-wide"
  else if hasOneTouch d && negb (hasTopLoaderNarrow d) && negb (hasTopLoaderWide d)
  then Some "onetouch"
  else None.

(** ** The script body: folders, export, archive and PDF copy *)

(** [s.split(sep)] for a separator of one character. *)
Fixpoint splitChar (sep : ascii) (s : string) : list string :=
  match s with
  | "" => [""]
  | String c s' =>
      if Ascii.eqb c sep then "" :: splitChar sep s'
      else match splitChar sep s' with
           | h :: t => String c h :: t
           | [] => [String c ""]
           end
  end.

(** [proofNumber.split("-")[0]] *)
Definition rootFolderOf (proofNumber : string) : string :=
  nth 0 (splitChar "-" proofNumber) "".


(** [lines.join(sep)] *)
Fixpoint joinWith (sep : string) (lines : list string) : string :=
  match lines with
  | [] => ""
  | [x] => x
  | x :: rest => x +:+ sep +:+ joinWith sep rest
  end.

Definition newline : string := String (ascii_of_nat 10) "".

Definition basePath : string :=
  "C:/Users/MasterBrader/Dropbox/STICKERs/ActualPrints".

(** The calls the script body makes on the host besides the export calls,
    in order. *)
Inductive hostCall : Type :=
| Alert (msg : string)
| CreateFolder (path : string)
| CreateZip (folderPath zipPath : string) (created : bool)
| SavePDF (pdfPath : string) (saved : bool).

(** What a run of the script leaves behind: its host calls, what
    exportByLayers returned and did when it was reached, and the flags of the
    open document. *)
Record scriptOutcome : Type := {
  hostCalls : list hostCall;
  exportRun : option runOutcome;
  flagsAfter : option docState
}.

Section Script.

Variable exportFile : docState -> exportRequest -> bool.
Variable numToString : number -> string.

(** [new Folder(path).fsName] and [new Folder(path).exists]; the second is
    read off the file system as it is before the run. *)
Variable fsName : string -> string.
Variable folderExists : string -> bool.

(** The status createZip returns for a folder and an archive path; the
    function catches every error and returns a boolean. *)
Variable createZip : string -> string -> bool.

(** [doc.saveAs(pdfFile, pdfOptions)], given the flags of the document at the
    call; it may raise. *)
Variable saveAs : docState -> string -> result unit.

(** [for (i ...) doc.layers[i].visible = true] *)
Definition showAll (n : nat) (v : gset nat) : gset nat :=
  fold_left (fun v i => setVisible i true v) (seq 0 n) v.

Definition savePDF (doc : document) (s : docState) (pdfPath : string)
  : bool * docState :=
  let s' := {| visible := showAll (length doc) (visible s); hidden := hidden s |} in
  match saveAs s' pdfPath with
  | Ok _ => (true, s')
  | Throw => (false, s')      (* [catch (e) { return false; }] *)
  end.

(** [if (!folder.exists) folder.create()] *)
Definition ensureFolder (path : string) : list hostCall :=
  if folderExists path then [] else [CreateFolder path].

(** The anonymous function the script runs: [open] is the active document
    with its flags ([None] when no document is open), [answer] what the
    prompt returned ([None] for null). *)
Definition runScript (open : option (document * docState))
    (answer : option string) : scriptOutcome :=
  match open with
  | None =>
      {| hostCalls := [Alert "Please open a document first."];
         exportRun := None; flagsAfter := None |}
  | Some (doc, s) =>
      match answer with
      | None | Some "" =>
          {| hostCalls := [Alert "Proof number is required."];
             exportRun := None; flagsAfter := Some s |}
      | Some proofNumber =>
          let detectedProductType := detectProductType doc in
          let productSuffix :=
            match detectedProductType with
            | Some t => "-" +:+ t
            | None => ""
            end in
          let rootFolder := rootFolderOf proofNumber in
          let outputFolder := basePath +:+ "/" +:+ rootFolder in
          let exportFolderName := proofNumber +:+ productSuffix +:+ "_exports" in
          let exportFolder := fsName outputFolder +:+ "/" +:+ exportFolderName in
          let folderCalls :=
            (ensureFolder outputFolder ++ ensureFolder exportFolder)%list in
          let result :=
            exportByLayers exportFile numToString (fsName exportFolder) doc s in
          if (0 <? retExported result)%nat then
            let zipPath := fsName outputFolder +:+ "/" +:+ proofNumber +:+
                           productSuffix +:+ "_exports.zip" in
            let zipCreated := createZip (fsName exportFolder) zipPath in
            let pdfPath := fsName outputFolder +:+ "/" +:+ proofNumber +:+
                           productSuffix +:+ "-MasterArtwork.pdf" in
            let saved := savePDF doc (finalFlags result) pdfPath in
            let pdfSaved := saved.1 in
            let msg :=
              "Exported " +:+
              numToString (Finite (inject_Z (Z.of_nat (retExported result)))) +:+
              " artworks." +:+ newline +:+
              "Product type: " +:+
              match detectedProductType with Some t => t | None => "auto" end +:+
              newline +:+ newline +:+
              (if zipCreated then "ZIP: " +:+ zipPath +:+ newline
               else "ZIP failed - please zip manually" +:+ newline) +:+
              (if pdfSaved then "PDF: " +:+ pdfPath +:+ newline
               else "PDF save failed" +:+ newline) +:+
              newline +:+ "Hid " +:+
              numToString (Finite (inject_Z (Z.of_nat (retHiddenItems result)))) +:+
              " cut contour items." +:+ newline +:+ newline +:+
              joinWith newline (retDetails result) in
            {| hostCalls := (folderCalls ++
                             [CreateZip (fsName exportFolder) zipPath zipCreated;
                              SavePDF pdfPath pdfSaved; Alert msg])%list;
               exportRun := Some result;
               flagsAfter := Some saved.2 |}
          else
            {| hostCalls := folderCalls;
               exportRun := Some result;
               flagsAfter := Some (finalFlags result) |}
      end
  end.

End Script.

(** ** The bounds aggregator as the specification words it

    Section 4.4 of the specification describes the aggregator as the union
    "over all currently non-hidden items in a layer, recursing into
    containers".  [specCollect] follows those words, for comparison with
    [collectBoundsRecursive]: every non-hidden item reached contributes the
    geometry read from it, and the children of a Group are visited in turn. *)

Fixpoint specCollect (h : gset nat) (it : item) (acc : boundsObj) : boundsObj :=
  if isHidden h it then acc
  else
    let acc' := match geometricBounds it with
                | Throw => acc
                | Ok b => includeBox b acc
                end in
    match typename it with
    | GroupItem =>
        (fix loop (l : list item) (acc : boundsObj) : boundsObj :=
           match l with
           | [] => acc
           | x :: rest => loop rest (specCollect h x acc)
           end) (pageItems it) acc'
    | _ => acc'
    end.

Definition specLayerBounds (l : layer) (h : gset nat)
  : option (number * number * number * number) :=
  let b := fold_left (fun acc x => specCollect h x acc) (layerItems l) emptyBounds in
  if isInfinity (bLeft b) then None
  else Some (bLeft b, bTop b, bRight b, bBottom b).

(** ** Builders for sample items *)

Definition mkPath (i : nat) (nm : string) (b : box) : item :=
  {| itemId := i; name := nm; typename := PathItem;
     stroked := false; strokeColor := Ok None;
     filled := false; fillColor := Ok None;
     geometricBounds := Ok b; pageItems := [] |}.

Definition mkGroup (i : nat) (nm : string) (g : result box) (children : list item)
  : item :=
  {| itemId := i; name := nm; typename := GroupItem;
     stroked := false; strokeColor := Ok None;
     filled := false; fillColor := Ok None;
     geometricBounds := g; pageItems := children |}.

(** ** Vocabulary of the statements *)

Definition idsOf (l : list item) : gset nat := list_to_set (itemId <$> l).

(** What a stretch of the traversal does to its state: it appends [added] to
    the ledger and sets the [hidden] flag of exactly the appended items, none
    of which was hidden when the stretch began. *)
Definition extends (st st' : hideState) (added : list item) : Prop :=
  st'.2 = (st.2 ++ added)%list /\
  st'.1 = idsOf added ∪ st.1 /\
  (forall x, In x added -> itemId x ∉ st.1).

(** Every appended item is one of [source] and is classified as contour. *)
Definition addedFrom (source added : list item) : Prop :=
  forall x, In x added -> In x source /\ shouldHideItem x = true.

(** The boxes that take part in the aggregation: those of the direct items of
    the layer that are not hidden and whose geometry can be read. *)
Definition contributors (items : list item) (h : gset nat) : list box :=
  flat_map (fun it => if isHidden h it then []
                      else match geometricBounds it with
                           | Ok b => [b]
                           | Throw => []
                           end) items.

Definition boxLeft (b : box) : Q := b.1.1.1.
Definition boxTop (b : box) : Q := b.1.1.2.
Definition boxRight (b : box) : Q := b.1.2.
Definition boxBottom (b : box) : Q := b.2.

Definition isMinOf (x : Q) (xs : list Q) : Prop :=
  In x xs /\ forall y, In y xs -> (x <= y)%Q.

Definition isMaxOf (x : Q) (xs : list Q) : Prop :=
  In x xs /\ forall y, In y xs -> (y <= x)%Q.

(** [l, t, r, b] is the union bounding box of the boxes [bs]. *)
Definition isUnionBox (l t r b : Q) (bs : list box) : Prop :=
  isMinOf l (map boxLeft bs) /\ isMaxOf t (map boxTop bs) /\
  isMaxOf r (map boxRight bs) /\ isMinOf b (map boxBottom bs).

Definition finiteBounds (l t r b : Q) : boundsObj :=
  {| bLeft := Finite l; bTop := Finite t; bRight := Finite r; bBottom := Finite b |}.

(** The three families of layer names, on trimmed, lower-cased names. *)
Definition isOneTouchName (nm : string) : Prop :=
  In nm oneTouchLayers \/ oneTouchPattern nm = true.

Definition isNarrowName (nm : string) : Prop :=
  nm = "54x72" \/ nm = "toploader-narrow" \/ nm = "toploader_narrow".

Definition isWideName (nm : string) : Prop :=
  nm = "76x102" \/ nm = "64x79" \/ nm = "toploader-wide" \/ nm = "toploader_wide".

(** Some layer of the document has a name of the family. *)
Definition docHas (family : string -> Prop) (doc : document) : Prop :=
  exists l, In l doc /\ family (toLowerCase (trim (layerName l))).

(** An export call made while layer [evLayer] alone, of the [n] layers, is
    visible. *)
Definition onlyItsLayerVisible (n : nat) (ev : exportEvent) : Prop :=
  evLayer ev < n /\
  forall j, j < n -> isVisible (visible (evFlags ev)) j = (j =? evLayer ev)%nat.

(** What every pass through the loop body keeps: flags of indices that are
    not layers of the document, the [hidden] flags, and the property of the
    export calls made so far. *)
Definition loopInvariant (n : nat) (s : docState) (rs : loopVars) : Prop :=
  (forall j, n <= j -> (j ∈ visible (flags rs) <-> j ∈ visible s)) /\
  hidden (flags rs) = hidden s /\
  Forall (onlyItsLayerVisible n) (exportLog rs).

(** An item with everything below it, and all the items of a list of trees. *)
Fixpoint subItems (it : item) : list item :=
  it :: (fix go (l : list item) : list item :=
           match l with
           | [] => []
           | x :: rest => (subItems x ++ go rest)%list
           end) (pageItems it).

Definition allItems (items : list item) : list item := flat_map subItems items.

(** A layer's content that gets exported: every page item in it is an object
    of its own, and some direct item is not hidden, is not classified as cut
    contour and has readable geometry. *)
Definition exportable (items : list item) (h : gset nat) : Prop :=
  NoDup (itemId <$> allItems items) /\
  exists it b, In it items /\ isHidden h it = false /\
               shouldHideItem it = false /\ geometricBounds it = Ok b.

(** The rectangle [rect] is the region of [bw] by [bh] for the items [items]
    when the hidden items are [h]: the artboard rectangle built around the
    centre of the union box of the items that are not hidden and have
    readable geometry, half of [bw] to the left and to the right, half of
    [bh] above and below. *)
Definition regionIs (bw bh : number) (items : list item) (h : gset nat)
    (rect : number * number * number * number) : Prop :=
  exists x t r b,
    isUnionBox x t r b (contributors items h) /\
    rect = artboardRect (Finite x) (Finite t) (Finite r) (Finite b) bw bh.

(** No item of the tree under [it] that the host would draw is classified as
    cut contour: the item is hidden, or it is not classified and, when it is
    a Group, the same holds of each of its children. *)
Fixpoint contourFree (h : gset nat) (it : item) : bool :=
  isHidden h it ||
  (negb (shouldHideItem it) &&
   match typename it with
   | GroupItem =>
       (fix all (l : list item) : bool :=
          match l with
          | [] => true
          | x :: rest => contourFree h x && all rest
          end) (pageItems it)
   | _ => true
   end).

Definition isUpper (c : ascii) : bool :=
  let n := nat_of_ascii c in (65 <=? n)%nat && (n <=? 90)%nat.

Fixpoint hasUpper (s : string) : bool :=
  match s with
  | "" => false
  | String c s' => isUpper c || hasUpper s'
  end.

Fixpoint allWhitespace (s : string) : bool :=
  match s with
  | "" => true
  | String c s' => isWhitespace c && allWhitespace s'
  end.

Fixpoint lastChar (s : string) : option ascii :=
  match s with
  | "" => None
  | String c "" => Some c
  | String _ s' => lastChar s'
  end.

Fixpoint hasChar (c : ascii) (s : string) : bool :=
  match s with
  | "" => false
  | String d s' => Ascii.eqb d c || hasChar c s'
  end.

(** The trimmed, lower-cased layer names of a document. *)
Definition normalizedNames (doc : document) : list string :=
  map (fun l => toLowerCase (trim (layerName l))) doc.

(** The output name and the bleed size the loop body works with for the
    trimmed layer name [nm]: those of the resolution, or the text
    ["undefined"] and [NaN] when the table object answers with an inherited
    member. *)
Definition resolvesTo (nm out : string) (bw bh : number) : Prop :=
  resolveSize nm = Resolved out bw bh \/
  (resolveSize nm = ResolvedInherited /\ out = "undefined" /\ bw = NaN /\ bh = NaN).

(** The export call [ev] of a run over [doc] that began with the hidden items
    [h0] is the call the loop body makes for its layer: the layer resolves to
    a size, the flags at the call are those the hide traversal leaves, the
    layer has content bounds, and the request is built from them. *)
Definition exportCallOf (exportFile : docState -> exportRequest -> bool)
    (exportFolder : string) (doc : document) (h0 : gset nat)
    (ev : exportEvent) : Prop :=
  exists l out bw bh c0 c1 c2 c3,
    doc !! evLayer ev = Some l /\
    resolvesTo (trim (layerName l)) out bw bh /\
    hidden (evFlags ev) = (hideAllCutContourItems l (h0, [])).1 /\
    getLayerBounds l (hidden (evFlags ev)) = Some (c0, c1, c2, c3) /\
    reqFilename (evRequest ev) = out +:+ ".png" /\
    reqPath (evRequest ev) = exportFolder +:+ "/" +:+ out +:+ ".png" /\
    reqScale (evRequest ev) = exportScale /\
    reqArtboard (evRequest ev) = artboardRect c0 c1 c2 c3 bw bh /\
    evStatus ev = exportFile (evFlags ev) (evRequest ev).

(** The bookkeeping the loop keeps: one export call per counted export, one
    outcome line at most per layer seen so far, and calls in layer order. *)
Definition accounted (i : nat) (rs : loopVars) : Prop :=
  exported rs = length (exportLog rs) /\
  (exported rs <= length (results rs))%nat /\
  (length (results rs) <= i)%nat /\
  Forall (fun ev => evLayer ev < i) (exportLog rs) /\
  StronglySorted lt (map evLayer (exportLog rs)).


(** Two states of the loop variables that report the same: equal counts,
    outcome lines and item flags, and the same export requests for the same
    layers. *)
Definition sameReport (rs rs' : loopVars) : Prop :=
  exported rs = exported rs' /\
  results rs = results rs' /\
  hiddenItemsTotal rs = hiddenItemsTotal rs' /\
  hidden (flags rs) = hidden (flags rs') /\
  map (fun ev => (evLayer ev, evRequest ev, hidden (evFlags ev))) (exportLog rs) =
  map (fun ev => (evLayer ev, evRequest ev, hidden (evFlags ev))) (exportLog rs').

(** The number a run of digits denotes as a decimal numeral, as the Standard
    Library reads numerals. *)
Definition decimalValue (s : string) : Z :=
  match NilEmpty.uint_of_string s with
  | Some u => Z.of_N (N.of_uint u)
  | None => 0%Z
  end.

(** ** Sample items, layers and documents *)

(** An item stroked with a spot colour whose name cannot be read and filled
    with the spot colour "Die Line". *)
Definition dieLineFilledFaultyStroke : item :=
  {| itemId := 1; name := ""; typename := PathItem;
     stroked := true; strokeColor := Ok (Some (SpotColor Throw));
     filled := true; fillColor := Ok (Some (SpotColor (Ok "Die Line")));
     geometricBounds := Ok (0, 10, 10, 0)%Q; pageItems := [] |}.

Definition namedCutContour35 : item :=
  {| itemId := 7; name := "CutContour_35"; typename := OtherItem;
     stroked := false; strokeColor := Throw;
     filled := false; fillColor := Throw;
     geometricBounds := Throw; pageItems := [] |}.

Definition dieLineFilled : item :=
  {| itemId := 2; name := ""; typename := PathItem;
     stroked := true; strokeColor := Ok (Some OtherColor);
     filled := true; fillColor := Ok (Some (SpotColor (Ok "Die Line")));
     geometricBounds := Ok (0, 10, 10, 0)%Q; pageItems := [] |}.

Definition backgroundFilled : item :=
  {| itemId := 3; name := "Layer art"; typename := PathItem;
     stroked := false; strokeColor := Ok None;
     filled := true; fillColor := Ok (Some (SpotColor (Ok "Background")));
     geometricBounds := Ok (0, 10, 10, 0)%Q; pageItems := [] |}.

Definition hiddenGroupWithContour : item :=
  mkGroup 1 "artwork" (Ok (0, 10, 10, 0)%Q)
          [mkPath 2 "CutContour" (0, 10, 10, 0)%Q].

Definition layerWithHiddenGroup : layer :=
  {| layerName := "35";
     layerItems := [mkPath 3 "photo" (1, 9, 9, 1)%Q; hiddenGroupWithContour;
                    mkPath 4 "Dieline" (0, 10, 10, 0)%Q] |}.

(** A group named as a cut contour, holding a path named as a cut contour. *)
Definition contourChild : item := mkPath 2 "CutContour" (0, 10, 10, 0)%Q.

Definition contourGroup : item :=
  mkGroup 1 "Die Line group" (Ok (0, 10, 10, 0)%Q) [contourChild].

Definition layerWithContourGroup : layer :=
  {| layerName := "35"; layerItems := [contourGroup] |}.

Definition plainGroup : item :=
  mkGroup 5 "artwork" (Ok (0, 10, 10, 0)%Q)
          [mkPath 6 "photo" (1, 9, 9, 1)%Q; contourChild].

(** A layer holding one visible group whose own geometry cannot be read, with
    a visible path inside. *)
Definition photoInGroup : item := mkPath 2 "photo" (0, 4, 4, 0)%Q.

Definition layerWithUnreadableGroup : layer :=
  {| layerName := "35"; layerItems := [mkGroup 1 "artwork" Throw [photoInGroup]] |}.

Definition layerOnePhoto : layer :=
  {| layerName := "35";
     layerItems := [mkPath 1 "CutContour" (0, 10, 10, 0)%Q;
                    mkPath 2 "photo" (1, 9, 8, 2)%Q] |}.

(** A path whose stroke colour cannot be inspected and whose geometry cannot
    be read. *)
Definition faultyPath : item :=
  {| itemId := 9; name := "logo"; typename := PathItem;
     stroked := true; strokeColor := Throw;
     filled := true; fillColor := Ok (Some (SpotColor (Ok "CutContour")));
     geometricBounds := Throw; pageItems := [] |}.

(** A document with the four layer names of the end-to-end scenario, whose
    "35" layer holds one visible path, a cut contour line. *)
Definition contourOnlyDoc : document :=
  [ {| layerName := "35"; layerItems := [mkPath 1 "CutContour" (0, 10, 10, 0)%Q] |};
    {| layerName := "999"; layerItems := [mkPath 2 "photo" (0, 10, 10, 0)%Q] |};
    {| layerName := "abc"; layerItems := [mkPath 3 "photo" (0, 10, 10, 0)%Q] |};
    {| layerName := "54x72"; layerItems := [mkPath 4 "photo" (0, 10, 10, 0)%Q] |} ].

Definition allLayersVisible : docState :=
  {| visible := {[0; 1; 2; 3]}; hidden := ∅ |}.

Definition fourLayerDoc : document :=
  [ {| layerName := "35";
       layerItems := [mkPath 1 "photo" (0, 10, 10, 0)%Q;
                      mkPath 5 "CutContour" (-2, 12, 12, -2)%Q] |};
    {| layerName := "999"; layerItems := [mkPath 2 "photo" (0, 10, 10, 0)%Q] |};
    {| layerName := "abc"; layerItems := [mkPath 3 "photo" (0, 10, 10, 0)%Q] |};
    {| layerName := "54x72"; layerItems := [mkPath 4 "photo" (0, 10, 10, 0)%Q] |} ].

(** * Properties *)

(** ** Strings and digit runs *)

Lemma isDigit_not_x (c : ascii) : isDigit c = true -> Ascii.eqb c "x" = false.
Proof.
  destruct c as [[] [] [] [] [] [] [] []]; vm_compute; congruence.
Qed.

Lemma append_assoc_x (w h : string) (c : ascii) :
  String c w +:+ "x" +:+ h = String c (w +:+ "x" +:+ h).
Proof. reflexivity. Qed.

(** A string accepted by [/^\d+x\d+$/] is a digit run, an [x], a digit run. *)
Lemma matchesWxHFrom_shape (s : string) : forall seen,
  matchesWxHFrom seen s = true ->
  exists w h, s = w +:+ "x" +:+ h /\ allDigits w = true /\
              (seen = true \/ w <> "") /\ matchesDigits h = true.
Proof.
  induction s as [|c s IH]; intros seen H; simpl in H; [discriminate|].
  destruct (isDigit c) eqn:Hd.
  - destruct (IH true H) as (w & h & -> & Hw & _ & Hh).
    exists (String c w), h. simpl. rewrite Hd, Hw. repeat split; auto.
  - destruct (Ascii.eqb c "x") eqn:Hx; [|discriminate].
    apply Ascii.eqb_eq in Hx. subst c.
    apply andb_true_iff in H as [Hs Hh].
    exists "", s. repeat split; auto.
Qed.

Lemma matchesWxHFrom_complete (w h : string) : forall seen,
  allDigits w = true -> (seen = true \/ w <> "") -> matchesDigits h = true ->
  matchesWxHFrom seen (w +:+ "x" +:+ h) = true.
Proof.
  induction w as [|c w IH]; intros seen Hw Hseen Hh.
  - destruct Hseen as [-> | Hne]; [|congruence]. simpl. exact Hh.
  - simpl in Hw. apply andb_true_iff in Hw as [Hc Hw].
    simpl. rewrite Hc. apply IH; auto.
Qed.

Lemma split_x_digits (h : string) :
  allDigits h = true -> split_x h = [h].
Proof.
  induction h as [|c h IH]; intros H; [reflexivity|].
  simpl in H. apply andb_true_iff in H as [Hc Hh].
  cbn [split_x]. rewrite (isDigit_not_x _ Hc), (IH Hh). reflexivity.
Qed.

Lemma split_x_WxH (w h : string) :
  allDigits w = true -> allDigits h = true ->
  split_x (w +:+ "x" +:+ h) = [w; h].
Proof.
  induction w as [|c w IH]; intros Hw Hh.
  - change ("" :: split_x h = [""; h]).
    rewrite (split_x_digits _ Hh). reflexivity.
  - simpl in Hw. apply andb_true_iff in Hw as [Hc Hw].
    rewrite append_assoc_x. cbn [split_x].
    rewrite (isDigit_not_x _ Hc), (IH Hw Hh). reflexivity.
Qed.

Lemma leadingDigits_all (s : string) : allDigits s = true -> leadingDigits s = s.
Proof.
  induction s as [|c s IH]; intros H; [reflexivity|].
  simpl in H. apply andb_true_iff in H as [Hc Hs].
  simpl. rewrite Hc, (IH Hs). reflexivity.
Qed.

Lemma matchesDigits_inv (s : string) :
  matchesDigits s = true -> s <> "" /\ allDigits s = true.
Proof.
  unfold matchesDigits. intros H. apply andb_true_iff in H as [Hne Hall].
  split; [|exact Hall]. intros ->. discriminate.
Qed.

Lemma parseFloat_digits (s : string) :
  matchesDigits s = true ->
  parseFloat s = round64 (inject_Z (Z.of_N (digitsValue s))).
Proof.
  intros H. apply matchesDigits_inv in H as [Hne Hall].
  unfold parseFloat. rewrite (leadingDigits_all _ Hall).
  destruct s; [congruence|reflexivity].
Qed.

(** [digitsValue] is the positional decimal value: appending a digit
    multiplies by ten and adds the digit. *)
Lemma digitsValueFrom_snoc (s : string) (c : ascii) : forall acc,
  digitsValueFrom acc (s +:+ String c "") =
  (10 * digitsValueFrom acc s + digitValue c)%N.
Proof.
  induction s as [|d s IH]; intros acc; simpl; [reflexivity|apply IH].
Qed.

(** The value [parseFloat] reads from a digit run is the number the run
    denotes as a decimal numeral. *)
Lemma digitsValueFrom_numeral (s : string) :
  allDigits s = true ->
  exists u, NilEmpty.uint_of_string s = Some u /\
            N.of_uint u = digitsValueFrom 0 s /\
            forall p, N.pos (Pos.of_uint_acc u p) = digitsValueFrom (N.pos p) s.
Proof.
  induction s as [|c s IH]; intros H.
  - exists Decimal.Nil. repeat split.
  - simpl in H. apply andb_true_iff in H as [Hc Hs].
    destruct (IH Hs) as (u & Eu & E0 & Eacc).
    cbn [NilEmpty.uint_of_string]. rewrite Eu.
    destruct c as [[] [] [] [] [] [] [] []]; try discriminate Hc;
      (eexists; split; [reflexivity|]; split;
       [first [exact E0|apply Eacc]
       |intros p; cbn [Pos.of_uint_acc digitsValueFrom]; rewrite Eacc;
        f_equal; vm_compute digitValue; lia]).
Qed.

Lemma digitsValue_decimalValue (s : string) :
  allDigits s = true -> Z.of_N (digitsValue s) = decimalValue s.
Proof.
  intros H. destruct (digitsValueFrom_numeral s H) as (u & Eu & E0 & _).
  unfold decimalValue, digitsValue. rewrite Eu, E0. reflexivity.
Qed.

(** ** Rounding to binary64 *)

(** An integer of magnitude up to 2^53 is not rounded. *)
Lemma round64_integer (z : Z) :
  (Z.abs z <= 2 ^ 53)%Z -> round64 (inject_Z z) = Finite (inject_Z z).
Proof.
  intros H. unfold round64. cbn [Qnum Qden inject_Z].
  apply Z.leb_le in H. rewrite H. reflexivity.
Qed.

(** Rounding on known binary64 numbers: one tenth, the bleed width 85.04,
    a tie at 2^53 + 1 that goes to the even significand, the largest finite
    number, the overflow threshold, and half the least subnormal number. *)
Lemma round64_examples :
  round64 0.1 = Finite (3602879701896397 # 36028797018963968) /\
  round64 85.04 = Finite (5984158004868547 # 70368744177664) /\
  round64 9007199254740993 = Finite 9007199254740992 /\
  round64 9007199254740995 = Finite 9007199254740996 /\
  round64 (inject_Z (2 ^ 1024 - 2 ^ 970 - 1)) =
    Finite (inject_Z (2 ^ 1024 - 2 ^ 971)) /\
  round64 (inject_Z (2 ^ 1024 - 2 ^ 970)) = Infinity /\
  round64 (- inject_Z (2 ^ 1024)) = NegInfinity /\
  round64 (1 # (2 ^ 1075)) = Finite 0 /\
  round64 (3 # (2 ^ 1075)) = Finite (1 # (2 ^ 1073)).
Proof. vm_compute. repeat split. Qed.

Lemma num_add_6_integer (v : Z) :
  (0 <= v)%Z -> (v + 6 <= 2 ^ 53)%Z ->
  num_add (round64 (inject_Z v)) (Finite 6) = Finite (inject_Z (v + 6)).
Proof.
  intros H0 H.
  assert (Hp : (2 ^ 53 = 9007199254740992)%Z) by reflexivity.
  rewrite round64_integer by lia.
  unfold num_add, operand.
  rewrite round64_integer by lia.
  change (round64 6) with (Finite 6). cbv iota.
  change (inject_Z v + 6)%Q with (Qmake (v * 1 + 6) 1).
  rewrite Z.mul_1_r. apply round64_integer. lia.
Qed.

(** Arithmetic with [NaN] gives [NaN]. *)
Lemma num_add_NaN (a : number) : num_add a NaN = NaN.
Proof. unfold num_add. destruct (operand a); reflexivity. Qed.

Lemma num_sub_NaN (a : number) : num_sub a NaN = NaN.
Proof. apply num_add_NaN. Qed.

(** None of the members every object inherits is a key of the table, a run
    of digits or of the WxH shape. *)
Lemma inheritedMember_names (nm : string) :
  inheritedMember nm = true ->
  lookupMapping sizeMapping nm = None /\ matchesWxH nm = false /\
  matchesDigits nm = false /\ (hasUpper nm = true \/ nm = "constructor").
Proof.
  unfold inheritedMember, inheritedMembers. cbn [existsb].
  rewrite !orb_true_iff. rewrite !String.eqb_eq.
  intros H.
  repeat (destruct H as [->|H];
          [repeat split; first [left; reflexivity|right; reflexivity]|]).
  discriminate.
Qed.

Lemma matchesWxH_not_inherited (nm : string) :
  matchesWxH nm = true -> inheritedMember nm = false.
Proof.
  intros H. destruct (inheritedMember nm) eqn:E; [|reflexivity].
  destruct (inheritedMember_names _ E) as (_ & H' & _). congruence.
Qed.


Lemma digits_x_digits (w h : string) :
  matchesDigits w = true -> matchesDigits h = true ->
  matchesWxH (w +:+ "x" +:+ h) = true /\ split_x (w +:+ "x" +:+ h) = [w; h].
Proof.
  intros Hw Hh.
  destruct (matchesDigits_inv _ Hw) as [Hne Hw'].
  destruct (matchesDigits_inv _ Hh) as [_ Hh'].
  split; [|apply split_x_WxH; assumption].
  apply matchesWxHFrom_complete; auto.
Qed.

(** ** The size resolver *)

(** C4. A trimmed layer name that is a key of the static size table resolves
    to that entry's output identifier and bleed width and height, also when
    the name has the WxH shape: "54x72" resolves to bleed 57 x 75, not
    60 x 78.  A name accepted by [^\d+x\d+$] is a digit run, an [x] and a
    digit run; when it is not a table key it resolves to the literal name,
    with bleed parsed width + 6 by parsed height + 6, the parsed number being
    the binary64 number nearest to the one the digit run denotes and [+] the
    addition of the script.  Up to 2^53 nothing is rounded, and the bleed is
    the denoted width and height plus 6 ("60x80" gives 66 x 86); beyond,
    rounding shows ("9007199254740993x1" gives 9007199254740998 x 7). *)
Theorem resolveSize_table_then_WxH :
  (forall key e, In (key, e) sizeMapping ->
     resolveSize key =
       Resolved (sizeGroup e) (literal (bleedWidth e)) (literal (bleedHeight e)))
  /\ (matchesWxH "54x72" = true /\
      resolveSize "54x72" = Resolved "54x72" (Finite 57) (Finite 75))
  /\ (forall nm, matchesWxH nm = true ->
        exists w h, nm = w +:+ "x" +:+ h /\
                    matchesDigits w = true /\ matchesDigits h = true)
  /\ (forall w h,
        matchesDigits w = true -> matchesDigits h = true ->
        lookupMapping sizeMapping (w +:+ "x" +:+ h) = None ->
        matchesWxH (w +:+ "x" +:+ h) = true /\
        parseFloat w = round64 (inject_Z (decimalValue w)) /\
        parseFloat h = round64 (inject_Z (decimalValue h)) /\
        resolveSize (w +:+ "x" +:+ h) =
          Resolved (w +:+ "x" +:+ h)
                   (num_add (parseFloat w) (Finite 6))
                   (num_add (parseFloat h) (Finite 6)) /\
        ((decimalValue w + 6 <= 2 ^ 53)%Z -> (decimalValue h + 6 <= 2 ^ 53)%Z ->
         resolveSize (w +:+ "x" +:+ h) =
           Resolved (w +:+ "x" +:+ h)
                    (Finite (inject_Z (decimalValue w + 6)))
                    (Finite (inject_Z (decimalValue h + 6)))))
  /\ resolveSize "60x80" = Resolved "60x80" (Finite 66) (Finite 86)
  /\ resolveSize "9007199254740993x1" =
       Resolved "9007199254740993x1" (Finite 9007199254740998) (Finite 7).
Proof.
  split; [|split; [|split; [|split; [|split]]]].
  - intros key e H. simpl in H.
    repeat (destruct H as [H|H]; [injection H as <- <-; reflexivity|]).
    destruct H.
  - split; reflexivity.
  - intros nm Hm.
    destruct (matchesWxHFrom_shape _ _ Hm) as (w & h & -> & Hw & [Hf|Hne] & Hh);
      [discriminate|].
    exists w, h. split; [reflexivity|]. split; [|exact Hh].
    unfold matchesDigits. rewrite Hw. destruct w; [congruence|reflexivity].
  - intros w h Hw Hh Hnone.
    destruct (digits_x_digits w h Hw Hh) as [Hm Hsplit].
    destruct (matchesDigits_inv _ Hw) as [_ Hw'].
    destruct (matchesDigits_inv _ Hh) as [_ Hh'].
    pose proof (parseFloat_digits _ Hw) as Pw.
    pose proof (parseFloat_digits _ Hh) as Ph.
    rewrite (digitsValue_decimalValue _ Hw') in Pw.
    rewrite (digitsValue_decimalValue _ Hh') in Ph.
    assert (R : resolveSize (w +:+ "x" +:+ h) =
                  Resolved (w +:+ "x" +:+ h)
                           (num_add (parseFloat w) (Finite 6))
                           (num_add (parseFloat h) (Finite 6))).
    { unfold resolveSize.
      rewrite Hnone, (matchesWxH_not_inherited _ Hm), Hm, Hsplit. reflexivity. }
    split; [exact Hm|]. split; [exact Pw|]. split; [exact Ph|].
    split; [exact R|].
    intros Bw Bh. rewrite R, Pw, Ph.
    rewrite !num_add_6_integer; auto;
      rewrite <- digitsValue_decimalValue by assumption; lia.
  - vm_compute. reflexivity.
  - vm_compute. reflexivity.
Qed.

Lemma resolveSize_table_then_WxH_witness :
  resolveSize "64x79" = Resolved "64x79" (Finite 67) (Finite 82) /\
  resolveSize "66x86" = Resolved "66x86" (Finite 72) (Finite 92) /\
  resolveSize "100x150" =
    Resolved "100x150" (num_add (parseFloat "100") (Finite 6))
                       (num_add (parseFloat "150") (Finite 6)).
Proof.
  destruct resolveSize_table_then_WxH as (Htab & _ & _ & Hwxh & _).
  split; [|split].
  - apply (Htab "64x79" {| sizeGroup := "64x79"; bleedWidth := 67;
                           bleedHeight := 82; templateGroup := Some "Top Loader" |}).
    simpl. tauto.
  - destruct (Hwxh "66" "86" eq_refl eq_refl eq_refl) as (_ & _ & _ & _ & R).
    apply R; vm_compute; discriminate.
  - destruct (Hwxh "100" "150" eq_refl eq_refl eq_refl) as (_ & _ & _ & R & _).
    exact R.
Defined.

(** ** The cut-contour classifier *)

Lemma shouldHideItem_name (it : item) :
  nameIsCutContour it = true -> shouldHideItem it = true.
Proof. unfold shouldHideItem. intros ->. reflexivity. Qed.

(** Once the name rule has said no, the verdict is that of the [try] block,
    a raised error counting as no. *)
Lemma shouldHideItem_unnamed (it : item) :
  nameIsCutContour it = false ->
  shouldHideItem it = match inspectColors it with
                      | Ok b => b
                      | Throw => false
                      end.
Proof.
  unfold shouldHideItem. intros ->.
  destruct (inspectColors it) as [[]|]; destruct (typename it); reflexivity.
Qed.

Lemma inspectColors_Throw_typename (it : item) :
  inspectColors it = Throw ->
  typename it = PathItem \/ typename it = CompoundPathItem.
Proof.
  unfold inspectColors. destruct (typename it); auto; discriminate.
Qed.

(** C7, as stated, fails: an unnamed path filled with the spot colour
    "Die Line" is classified as not a contour item when inspecting its
    stroke raises, because the single [try] block is left before the fill is
    looked at. *)
Lemma shouldHideItem_die_line_fill_counterexample :
  name dieLineFilledFaultyStroke = "" /\
  typename dieLineFilledFaultyStroke = PathItem /\
  filled dieLineFilledFaultyStroke = true /\
  fillColor dieLineFilledFaultyStroke = Ok (Some (SpotColor (Ok "Die Line"))) /\
  shouldHideItem dieLineFilledFaultyStroke = false.
Proof. repeat split. Qed.

(** C7, amended. The classifier returns true for any item named
    "CutContour_35"; returns true for an unnamed path item filled with a spot
    colour named "Die Line", provided that inspecting its stroke does not
    raise; and returns false for a path item whose name matches no pattern
    and whose spot colours, where it has any, are named "Background". *)
Theorem shouldHideItem_examples :
  (forall it, name it = "CutContour_35" -> shouldHideItem it = true)
  /\ (forall it,
        name it = "" -> typename it = PathItem ->
        filled it = true ->
        fillColor it = Ok (Some (SpotColor (Ok "Die Line"))) ->
        inspectColor (stroked it) (strokeColor it) <> Throw ->
        shouldHideItem it = true)
  /\ (forall it,
        typename it = PathItem ->
        nameIsCutContour it = false ->
        (forall s, strokeColor it = Ok (Some (SpotColor s)) -> s = Ok "Background") ->
        (forall s, fillColor it = Ok (Some (SpotColor s)) -> s = Ok "Background") ->
        shouldHideItem it = false).
Proof.
  split; [|split].
  - intros it Hn. apply shouldHideItem_name.
    unfold nameIsCutContour. rewrite Hn. reflexivity.
  - intros it Hn Hty Hf Hfc Hstroke.
    rewrite shouldHideItem_unnamed
      by (unfold nameIsCutContour; rewrite Hn; reflexivity).
    unfold inspectColors. rewrite Hty.
    destruct (inspectColor (stroked it) (strokeColor it)) as [[]|];
      [reflexivity| |congruence].
    rewrite Hf, Hfc. reflexivity.
  - intros it Hty Hn Hs Hf.
    rewrite (shouldHideItem_unnamed _ Hn).
    unfold inspectColors, inspectColor. rewrite Hty.
    assert (Hbg : isCutContourName "Background" = false) by reflexivity.
    destruct (stroked it), (strokeColor it) as [[[s|]|]|] eqn:Es;
      try (specialize (Hs _ eq_refl) as ->; rewrite Hbg);
      destruct (filled it), (fillColor it) as [[[f|]|]|] eqn:Ef;
      try (specialize (Hf _ eq_refl) as ->; rewrite Hbg);
      reflexivity.
Qed.

Lemma shouldHideItem_examples_witness :
  shouldHideItem namedCutContour35 = true /\
  shouldHideItem dieLineFilled = true /\
  shouldHideItem backgroundFilled = false.
Proof.
  destruct shouldHideItem_examples as (H1 & H2 & H3).
  split; [|split].
  - apply H1. reflexivity.
  - apply H2; try reflexivity. simpl. discriminate.
  - apply H3; try reflexivity.
    + simpl. intros s H. discriminate H.
    + simpl. intros s H. injection H as <-. reflexivity.
Defined.

(** ** The hide traversal *)

(** Induction over the item tree, with the hypothesis available for every
    child of the item at hand. *)
Lemma item_tree_ind (P : item -> Prop) :
  (forall it, Forall P (pageItems it) -> P it) -> forall it, P it.
Proof.
  intros step. fix IH 1. intros it. apply step.
  destruct it as [i nm ty s sc f fc g children]. simpl.
  induction children as [|c children IHc]; constructor.
  - apply IH.
  - exact IHc.
Qed.

(** The loop body, with the call for a Group spelled as in the source. *)
Lemma hideStep_unfold (it : item) (st : hideState) :
  hideStep it st =
    if isHidden st.1 it then st
    else if shouldHideItem it then ({[itemId it]} ∪ st.1, (st.2 ++ [it])%list)
    else match typename it with
         | GroupItem => hideAllCutContourItemsInGroup it st
         | _ => st
         end.
Proof.
  destruct it as [i nm ty s sc f fc g children].
  unfold hideAllCutContourItemsInGroup, hideLoop. simpl.
  destruct (isHidden _ _); [reflexivity|].
  destruct (shouldHideItem _); [reflexivity|].
  destruct ty; reflexivity.
Qed.

Lemma hideLoop_cons (x : item) (rest : list item) (st : hideState) :
  hideLoop (x :: rest) st = hideLoop rest (hideStep x st).
Proof. reflexivity. Qed.

Lemma hideLoop_app (l1 l2 : list item) (st : hideState) :
  hideLoop (l1 ++ l2)%list st = hideLoop l2 (hideLoop l1 st).
Proof. unfold hideLoop. apply fold_left_app. Qed.

Lemma extends_refl (st : hideState) : extends st st [].
Proof.
  unfold extends, idsOf. simpl. rewrite app_nil_r.
  repeat split; [set_solver|intros x []].
Qed.

Lemma extends_trans (st1 st2 st3 : hideState) (a b : list item) :
  extends st1 st2 a -> extends st2 st3 b -> extends st1 st3 (a ++ b)%list.
Proof.
  unfold extends, idsOf. intros (L1 & H1 & F1) (L2 & H2 & F2).
  rewrite L2, L1, H2, H1, app_assoc, fmap_app, list_to_set_app_L.
  repeat split; [set_solver|].
  intros x Hx. apply in_app_or in Hx as [Hx|Hx]; [auto|].
  specialize (F2 x Hx). rewrite H1 in F2. set_solver.
Qed.

Lemma hideLoop_extends_of (l : list item) :
  Forall (fun it => forall st, exists added, extends st (hideStep it st) added) l ->
  forall st, exists added, extends st (hideLoop l st) added.
Proof.
  induction 1 as [|x rest Hx _ IH]; intros st.
  - exists []. apply extends_refl.
  - rewrite hideLoop_cons.
    destruct (Hx st) as [a Ha]. destruct (IH (hideStep x st)) as [b Hb].
    exists (a ++ b)%list. eapply extends_trans; eauto.
Qed.

Lemma hideStep_extends (it : item) :
  forall st, exists added, extends st (hideStep it st) added.
Proof.
  induction it as [it IH] using item_tree_ind. intros st.
  rewrite hideStep_unfold. unfold isHidden.
  case_bool_decide as Hh; [exists []; apply extends_refl|].
  destruct (shouldHideItem it).
  - exists [it]. unfold extends, idsOf. simpl. repeat split; [set_solver|].
    intros x [<-|[]]. exact Hh.
  - destruct (typename it); try (exists []; apply extends_refl).
    apply hideLoop_extends_of, IH.
Qed.

Lemma hideLoop_extends (l : list item) (st : hideState) :
  exists added, extends st (hideLoop l st) added.
Proof.
  apply hideLoop_extends_of, Forall_forall. intros x _. apply hideStep_extends.
Qed.

Lemma subItems_unfold (it : item) :
  subItems it = it :: allItems (pageItems it).
Proof. destruct it. reflexivity. Qed.

Lemma In_allItems_direct (it : item) (items : list item) :
  In it items -> In it (allItems items).
Proof.
  intros H. unfold allItems. apply in_flat_map. exists it.
  split; [exact H|]. rewrite subItems_unfold. left. reflexivity.
Qed.

Lemma NoDup_fmap_same {A B : Type} (f : A -> B) (l : list A) (x y : A) :
  NoDup (f <$> l) -> In x l -> In y l -> f x = f y -> x = y.
Proof.
  induction l as [|a l IH]; intros Hnd Hx Hy E; [destruct Hx|].
  rewrite fmap_cons in Hnd. apply NoDup_cons in Hnd as [Hna Hnd].
  destruct Hx as [->|Hx], Hy as [->|Hy]; auto.
  - exfalso. apply Hna. rewrite E. apply list_elem_of_fmap.
    exists y. split; [reflexivity|apply list_elem_of_In, Hy].
  - exfalso. apply Hna. rewrite <- E. apply list_elem_of_fmap.
    exists x. split; [reflexivity|apply list_elem_of_In, Hx].
Qed.

Lemma extends_added_unique (st st' : hideState) (a b : list item) :
  extends st st' a -> extends st st' b -> a = b.
Proof.
  intros (La & _) (Lb & _). rewrite La in Lb.
  exact (app_inv_head _ _ _ Lb).
Qed.

Lemma hideLoop_added_of (l : list item) :
  Forall (fun it => forall st added,
            extends st (hideStep it st) added -> addedFrom (subItems it) added) l ->
  forall st added,
    extends st (hideLoop l st) added -> addedFrom (allItems l) added.
Proof.
  induction 1 as [|y rest Hy Hrest IH]; intros st added Hext.
  - rewrite (extends_added_unique _ _ _ _ Hext (extends_refl st)). intros x [].
  - rewrite hideLoop_cons in Hext.
    destruct (hideStep_extends y st) as [a Ha].
    destruct (hideLoop_extends rest (hideStep y st)) as [b Hb].
    rewrite (extends_added_unique _ _ _ _ Hext (extends_trans _ _ _ _ _ Ha Hb)).
    intros x Hx. unfold allItems. simpl. rewrite in_app_iff.
    apply in_app_or in Hx as [Hx|Hx].
    + destruct (Hy _ _ Ha x Hx). auto.
    + destruct (IH _ _ Hb x Hx). auto.
Qed.

(** What the traversal appends for an item comes from the item's own tree
    and is classified as contour. *)
Lemma hideStep_added (it : item) : forall st added,
  extends st (hideStep it st) added -> addedFrom (subItems it) added.
Proof.
  induction it as [it IH] using item_tree_ind. intros st added.
  rewrite hideStep_unfold, subItems_unfold.
  destruct (isHidden st.1 it).
  { intros Hext. rewrite (extends_added_unique _ _ _ _ Hext (extends_refl st)).
    intros x []. }
  destruct (shouldHideItem it) eqn:Hs.
  - intros (HL & _). simpl in HL. apply app_inv_head in HL. subst added.
    intros x [<-|[]]. split; [left; reflexivity|exact Hs].
  - destruct (typename it);
      try (intros Hext;
           rewrite (extends_added_unique _ _ _ _ Hext (extends_refl st));
           intros x []).
    unfold hideAllCutContourItemsInGroup. intros Hext x Hx.
    destruct (hideLoop_added_of _ IH _ _ Hext x Hx). split; [right|]; auto.
Qed.

Lemma hideLoop_added (l : list item) (st : hideState) (added : list item) :
  extends st (hideLoop l st) added -> addedFrom (allItems l) added.
Proof.
  apply hideLoop_added_of, Forall_forall. intros y _. apply hideStep_added.
Qed.

Lemma idsOf_elem (i : nat) (l : list item) :
  i ∈ idsOf l <-> exists x, In x l /\ itemId x = i.
Proof.
  unfold idsOf. rewrite elem_of_list_to_set, list_elem_of_fmap.
  split; intros (x & H1 & H2).
  - exists x. split; [apply list_elem_of_In, H2|auto].
  - exists x. split; [auto|apply list_elem_of_In, H1].
Qed.

(** A direct item that is not hidden and not classified stays visible through
    the traversal, when no other item shares its identity. *)
Lemma direct_item_stays_visible (items : list item) (h : gset nat) (it : item) :
  NoDup (itemId <$> allItems items) ->
  In it items -> isHidden h it = false -> shouldHideItem it = false ->
  isHidden (hideLoop items (h, [])).1 it = false.
Proof.
  intros Hnd Hin Hh Hs.
  destruct (hideLoop_extends items (h, [])) as [added Hext].
  pose proof (hideLoop_added _ _ _ Hext) as Hfrom.
  destruct Hext as (_ & HH & _). simpl in HH. unfold isHidden in *.
  apply bool_decide_eq_false in Hh. apply bool_decide_eq_false.
  rewrite HH. intros Hc. apply elem_of_union in Hc as [Hc|Hc]; [|contradiction].
  apply idsOf_elem in Hc as (x & Hx & Ex).
  destruct (Hfrom x Hx) as [Hall Hsx].
  assert (x = it).
  { apply (NoDup_fmap_same itemId (allItems items)); auto using In_allItems_direct. }
  congruence.
Qed.

(** Items at different places of a forest of distinct objects differ in
    identity. *)
Lemma NoDup_ids_apart (before after : list item) (it x y : item) :
  NoDup (itemId <$> allItems (before ++ it :: after)%list) ->
  In x (subItems it) -> In y (allItems (before ++ after)%list) ->
  itemId x <> itemId y.
Proof.
  unfold allItems. rewrite !flat_map_app. simpl. rewrite !fmap_app.
  intros Hnd Hx Hy E.
  apply NoDup_app in Hnd as (_ & Hba & Hnd).
  apply NoDup_app in Hnd as (_ & Hia & _).
  assert (Hxi : itemId x ∈ itemId <$> subItems it).
  { apply list_elem_of_fmap. exists x. split; [reflexivity|apply list_elem_of_In, Hx]. }
  apply in_app_or in Hy as [Hy|Hy].
  - apply (Hba (itemId y)).
    + apply list_elem_of_fmap. exists y. split; [reflexivity|apply list_elem_of_In, Hy].
    + rewrite <- E. apply elem_of_app. left. exact Hxi.
  - apply (Hia (itemId x) Hxi). rewrite E.
    apply list_elem_of_fmap. exists y. split; [reflexivity|apply list_elem_of_In, Hy].
Qed.

Lemma restoreItems_difference (items : list item) (h : gset nat) :
  restoreItems items h = h ∖ idsOf items.
Proof.
  unfold restoreItems, idsOf. revert h.
  induction items as [|x items IH]; intros h; simpl.
  - set_solver.
  - rewrite IH. set_solver.
Qed.

Lemma restoreItems_extends (st st' : hideState) (added : list item) :
  extends st st' added -> restoreItems added st'.1 = st.1.
Proof.
  intros (_ & H & F). rewrite restoreItems_difference, H.
  assert (D : forall i, i ∈ idsOf added -> i ∉ st.1).
  { unfold idsOf. intros i Hi. apply elem_of_list_to_set in Hi.
    apply list_elem_of_fmap in Hi as (x & -> & Hx).
    apply F, list_elem_of_In, Hx. }
  set_solver.
Qed.

(** C2. Running the hide traversal over a layer and then restoring every
    entry of the ledger it produced leaves every item's [hidden] flag as it
    was before the traversal: the set of hidden items is the same set, every
    ledger entry is back to not hidden, which is what it was, and no other
    flag has changed. *)
Theorem hide_then_restore_identity (l : layer) (h : gset nat) :
  let st := hideAllCutContourItems l (h, []) in
  restoreItems st.2 st.1 = h /\
  (forall it, isHidden (restoreItems st.2 st.1) it = isHidden h it) /\
  (forall x, In x st.2 ->
     isHidden h x = false /\ isHidden st.1 x = true /\
     isHidden (restoreItems st.2 st.1) x = false).
Proof.
  intros st.
  destruct (hideLoop_extends (layerItems l) (h, [])) as [added Hext].
  fold (hideAllCutContourItems l (h, [])) in Hext. fold st in Hext.
  pose proof Hext as (HL & HH & HF). simpl in HL, HH, HF.
  assert (E : restoreItems st.2 st.1 = h).
  { rewrite HL. apply (restoreItems_extends _ _ _ Hext). }
  split; [exact E|]. split; [intros it; rewrite E; reflexivity|].
  intros x Hx. rewrite E. rewrite HL in Hx.
  assert (Hn : isHidden h x = false).
  { unfold isHidden. apply bool_decide_eq_false. auto. }
  repeat split; auto.
  unfold isHidden. apply bool_decide_eq_true. rewrite HH.
  unfold idsOf. apply elem_of_union_l, elem_of_list_to_set, list_elem_of_fmap.
  exists x. split; [reflexivity|apply list_elem_of_In, Hx].
Qed.

Lemma extends_hidden_mono (st st' : hideState) (added : list item) (it : item) :
  extends st st' added -> isHidden st.1 it = true -> isHidden st'.1 it = true.
Proof.
  unfold isHidden. intros (_ & H & _) Hh.
  apply bool_decide_eq_true in Hh. apply bool_decide_eq_true.
  rewrite H. set_solver.
Qed.

Lemma hideStep_hidden (it : item) (st : hideState) :
  isHidden st.1 it = true -> hideStep it st = st.
Proof. intros H. rewrite hideStep_unfold, H. reflexivity. Qed.

Lemma hideLoop_skip (before after : list item) (it : item) (st : hideState) :
  hideStep it (hideLoop before st) = hideLoop before st ->
  hideLoop (before ++ it :: after)%list st = hideLoop (before ++ after)%list st.
Proof.
  intros H. rewrite !hideLoop_app, hideLoop_cons, H. reflexivity.
Qed.

(** Nothing below an item that is hidden when the traversal starts is
    recorded or has its flag changed, the items being distinct objects. *)
Lemma hidden_subtree_untouched (before after : list item) (it x : item)
    (st : hideState) :
  NoDup (itemId <$> allItems (before ++ it :: after)%list) ->
  isHidden st.1 it = true -> In x (subItems it) ->
  isHidden (hideLoop (before ++ it :: after)%list st).1 x = isHidden st.1 x /\
  forall added,
    extends st (hideLoop (before ++ it :: after)%list st) added -> ~ In x added.
Proof.
  intros Hnd Hh Hx.
  assert (E : hideLoop (before ++ it :: after)%list st =
              hideLoop (before ++ after)%list st).
  { apply hideLoop_skip, hideStep_hidden.
    destruct (hideLoop_extends before st) as [a Ha].
    exact (extends_hidden_mono _ _ _ _ Ha Hh). }
  rewrite E.
  destruct (hideLoop_extends (before ++ after)%list st) as [added Hext].
  pose proof (hideLoop_added _ _ _ Hext) as Hfrom.
  assert (Hnot : itemId x ∉ idsOf added).
  { intros Hc. apply idsOf_elem in Hc as (y & Hy & Ey).
    destruct (Hfrom y Hy) as [Hall _].
    exact (NoDup_ids_apart _ _ _ _ _ Hnd Hx Hall (eq_sym Ey)). }
  split.
  - destruct Hext as (_ & HH & _). unfold isHidden. rewrite HH.
    apply bool_decide_ext. set_solver.
  - intros added' Hext'. rewrite (extends_added_unique _ _ _ _ Hext' Hext).
    intros Hin. apply Hnot, idsOf_elem. exists x. auto.
Qed.

(** C9. An item that is already hidden when the traversal reaches it is not
    appended to the ledger and, when it is a container, is not descended
    into: the loop body leaves ledger and flags as they are, so the traversal
    of a list of items gives what it gives with the hidden item and all its
    contents taken out of the list; no entry of the ledger produced for a
    layer was hidden before the traversal; and, the items being distinct
    objects, nothing in the tree below a hidden item is recorded or has its
    flag changed. *)
Theorem already_hidden_item_skipped :
  (forall it st, isHidden st.1 it = true -> hideStep it st = st)
  /\ (forall before it after st,
        isHidden (hideLoop before st).1 it = true ->
        hideLoop (before ++ it :: after)%list st = hideLoop (before ++ after)%list st)
  /\ (forall l before it after h,
        layerItems l = (before ++ it :: after)%list ->
        isHidden h it = true ->
        hideAllCutContourItems l (h, []) = hideLoop (before ++ after)%list (h, []))
  /\ (forall l h x,
        In x (hideAllCutContourItems l (h, [])).2 -> isHidden h x = false)
  /\ (forall before it after st x,
        NoDup (itemId <$> allItems (before ++ it :: after)%list) ->
        isHidden st.1 it = true -> In x (subItems it) ->
        isHidden (hideLoop (before ++ it :: after)%list st).1 x = isHidden st.1 x /\
        forall added,
          extends st (hideLoop (before ++ it :: after)%list st) added ->
          ~ In x added).
Proof.
  split; [exact hideStep_hidden|]. split; [|split; [|split]];
    [| | |intros before it after st x; apply hidden_subtree_untouched].
  - intros before it after st H. apply hideLoop_skip, hideStep_hidden, H.
  - intros l before it after h E H.
    unfold hideAllCutContourItems. rewrite E.
    apply hideLoop_skip, hideStep_hidden.
    destruct (hideLoop_extends before (h, [])) as [a Ha].
    exact (extends_hidden_mono _ _ _ _ Ha H).
  - intros l h x Hx.
    destruct (hideLoop_extends (layerItems l) (h, [])) as [a (La & _ & Fa)].
    unfold hideAllCutContourItems in Hx. rewrite La in Hx. simpl in Hx, Fa.
    unfold isHidden. apply bool_decide_eq_false. auto.
Qed.

Lemma already_hidden_item_skipped_witness :
  hideStep hiddenGroupWithContour ({[1]}, []) = ({[1]}, []) /\
  hideAllCutContourItems layerWithHiddenGroup ({[1]}, []) =
    hideLoop [mkPath 3 "photo" (1, 9, 9, 1)%Q; mkPath 4 "Dieline" (0, 10, 10, 0)%Q]
             ({[1]}, []) /\
  (forall x, In x (hideAllCutContourItems layerWithHiddenGroup ({[1]}, [])).2 ->
             isHidden {[1]} x = false) /\
  isHidden (hideAllCutContourItems layerWithHiddenGroup ({[1]}, [])).1
           (mkPath 2 "CutContour" (0, 10, 10, 0)%Q) = false.
Proof.
  destruct already_hidden_item_skipped as (H1 & _ & H3 & H4 & H5).
  split; [|split; [|split]]; cycle 3.
  { destruct (H5 [mkPath 3 "photo" (1, 9, 9, 1)%Q] hiddenGroupWithContour
                 [mkPath 4 "Dieline" (0, 10, 10, 0)%Q] ({[1]}, [])
                 (mkPath 2 "CutContour" (0, 10, 10, 0)%Q)) as [E _].
    - apply (bool_decide_unpack _). vm_compute. exact I.
    - reflexivity.
    - right. left. reflexivity.
    - exact E. }
  - apply H1. reflexivity.
  - apply (H3 layerWithHiddenGroup [mkPath 3 "photo" (1, 9, 9, 1)%Q]
              hiddenGroupWithContour).
    + reflexivity.
    + reflexivity.
  - apply H4.
Defined.

(** C3, as stated, fails: the traversal hides a group by its name and moves
    on to the group's next sibling; the contour-classified child of that
    group is neither recorded in the ledger nor hidden. *)
Lemma name_hidden_group_children_counterexample :
  typename contourGroup = GroupItem /\
  In contourChild (pageItems contourGroup) /\
  isHidden ∅ contourGroup = false /\
  nameIsCutContour contourGroup = true /\
  shouldHideItem contourChild = true /\
  (hideAllCutContourItems layerWithContourGroup (∅, [])).2 = [contourGroup] /\
  ~ In contourChild (hideAllCutContourItems layerWithContourGroup (∅, [])).2 /\
  isHidden (hideAllCutContourItems layerWithContourGroup (∅, [])).1 contourChild
    = false.
Proof.
  repeat split; try (left; reflexivity).
  intros [H|[]]. discriminate H.
Qed.

Lemma hideLoop_records (l : list item) : forall st c,
  In c l -> shouldHideItem c = true -> isHidden st.1 c = false ->
  exists added,
    extends st (hideLoop l st) added /\
    exists x, In x added /\ itemId x = itemId c.
Proof.
  induction l as [|x rest IH]; intros st c Hin Hc Hh; [destruct Hin|].
  rewrite hideLoop_cons.
  destruct (hideStep_extends x st) as [a Ha].
  destruct (isHidden (hideStep x st).1 c) eqn:Hc1.
  - (* hidden by the step on [x]: it is among the entries that step added *)
    destruct (hideLoop_extends rest (hideStep x st)) as [b Hb].
    exists (a ++ b)%list. split; [eapply extends_trans; eauto|].
    destruct Ha as (_ & H1 & _). unfold isHidden in Hc1, Hh.
    apply bool_decide_eq_true in Hc1. apply bool_decide_eq_false in Hh.
    rewrite H1 in Hc1. apply elem_of_union in Hc1 as [Hc1|Hc1]; [|contradiction].
    unfold idsOf in Hc1. apply elem_of_list_to_set in Hc1.
    apply list_elem_of_fmap in Hc1 as (y & Ey & Hy).
    exists y. split; [apply in_or_app; left; apply list_elem_of_In, Hy|auto].
  - destruct Hin as [->|Hin].
    + (* [c] is the item at hand: the step hides and records it *)
      exfalso. rewrite hideStep_unfold, Hh, Hc in Hc1. simpl in Hc1.
      unfold isHidden in Hc1. apply bool_decide_eq_false in Hc1. set_solver.
    + destruct (IH (hideStep x st) c Hin Hc Hc1) as (b & Hb & y & Hy & Ey).
      exists (a ++ b)%list. split; [eapply extends_trans; eauto|].
      exists y. split; [apply in_or_app; right; exact Hy|exact Ey].
Qed.

(** C3, amended. The children of a group are evaluated by recursive descent
    only when the group is not hidden already and the traversal does not hide
    the group itself.  A group the traversal hides is recorded in the ledger
    itself, and that is all the traversal does for it.  A group it
    reaches and does not hide is descended into, and every contour-classified
    child that is not hidden then ends up hidden and recorded in the
    ledger. *)
Theorem group_children_evaluated_unless_group_hidden :
  (forall g st,
     typename g = GroupItem -> isHidden st.1 g = false ->
     shouldHideItem g = true ->
     hideStep g st = ({[itemId g]} ∪ st.1, (st.2 ++ [g])%list))
  /\ (forall g st,
        typename g = GroupItem -> isHidden st.1 g = false ->
        shouldHideItem g = false ->
        hideStep g st = hideAllCutContourItemsInGroup g st)
  /\ (forall g st c,
        typename g = GroupItem -> isHidden st.1 g = false ->
        shouldHideItem g = false ->
        In c (pageItems g) -> shouldHideItem c = true ->
        isHidden st.1 c = false ->
        isHidden (hideStep g st).1 c = true /\
        exists added,
          (hideStep g st).2 = (st.2 ++ added)%list /\
          exists x, In x added /\ itemId x = itemId c).
Proof.
  split; [|split].
  - intros g st _ Hh Hs. rewrite hideStep_unfold, Hh, Hs. reflexivity.
  - intros g st Hty Hh Hs. rewrite hideStep_unfold, Hh, Hs, Hty. reflexivity.
  - intros g st c Hty Hh Hs Hin Hc Hhc.
    rewrite hideStep_unfold, Hh, Hs, Hty. unfold hideAllCutContourItemsInGroup.
    destruct (hideLoop_records _ st c Hin Hc Hhc) as (added & Hext & x & Hx & Ex).
    split.
    + destruct Hext as (_ & H1 & _). unfold isHidden.
      apply bool_decide_eq_true. rewrite H1. apply elem_of_union_l.
      unfold idsOf. apply elem_of_list_to_set, list_elem_of_fmap.
      exists x. split; [auto|apply list_elem_of_In, Hx].
    + exists added. split; [apply Hext|]. exists x. auto.
Qed.

Lemma group_children_evaluated_unless_group_hidden_witness :
  hideStep contourGroup (∅, []) = ({[1]} ∪ ∅, [contourGroup]) /\
  hideStep plainGroup (∅, []) = hideAllCutContourItemsInGroup plainGroup (∅, []) /\
  isHidden (hideStep plainGroup (∅, [])).1 contourChild = true /\
  exists added,
    (hideStep plainGroup (∅, [])).2 = added /\
    exists x, In x added /\ itemId x = 2.
Proof.
  destruct group_children_evaluated_unless_group_hidden as (H1 & H2 & H3).
  split; [|split].
  - apply (H1 contourGroup (∅, [])); reflexivity.
  - apply (H2 plainGroup (∅, [])); reflexivity.
  - destruct (H3 plainGroup (∅, []) contourChild) as (Hh & added & E & x & Hx & Ex);
      try reflexivity.
    + right. left. reflexivity.
    + split; [exact Hh|]. exists added. split; [exact E|]. exists x. auto.
Defined.

(** ** The bounds aggregator *)

Lemma collectBoundsRecursive_contributors (items : list item) (h : gset nat) :
  forall acc,
    collectBoundsRecursive items h acc =
    fold_left (fun acc b => includeBox b acc) (contributors items h) acc.
Proof.
  unfold collectBoundsRecursive.
  induction items as [|it items IH]; intros acc; [reflexivity|].
  simpl. rewrite fold_left_app, IH. unfold collectStep.
  destruct (isHidden h it); [reflexivity|].
  destruct (geometricBounds it); reflexivity.
Qed.

Lemma isMinOf_step (l x : Q) (xs : list Q) :
  isMinOf l xs ->
  isMinOf (if negb (Qle_bool l x) then x else l) (xs ++ [x])%list.
Proof.
  intros [Hin Hle]. destruct (Qle_bool l x) eqn:E; simpl.
  - apply Qle_bool_iff in E. split; [apply in_or_app; auto|].
    intros y Hy. apply in_app_or in Hy as [Hy|[<-|[]]]; auto.
  - assert (Hlt : (x < l)%Q).
    { apply Qnot_le_lt. intros Hc. apply Qle_bool_iff in Hc. congruence. }
    split; [apply in_or_app; right; left; reflexivity|].
    intros y Hy. apply in_app_or in Hy as [Hy|[<-|[]]].
    + apply Qle_trans with l; [apply Qlt_le_weak, Hlt|auto].
    + apply Qle_refl.
Qed.

Lemma isMaxOf_step (t x : Q) (xs : list Q) :
  isMaxOf t xs ->
  isMaxOf (if negb (Qle_bool x t) then x else t) (xs ++ [x])%list.
Proof.
  intros [Hin Hle]. destruct (Qle_bool x t) eqn:E; simpl.
  - apply Qle_bool_iff in E. split; [apply in_or_app; auto|].
    intros y Hy. apply in_app_or in Hy as [Hy|[<-|[]]]; auto.
  - assert (Hlt : (t < x)%Q).
    { apply Qnot_le_lt. intros Hc. apply Qle_bool_iff in Hc. congruence. }
    split; [apply in_or_app; right; left; reflexivity|].
    intros y Hy. apply in_app_or in Hy as [Hy|[<-|[]]].
    + apply Qle_trans with t; [auto|apply Qlt_le_weak, Hlt].
    + apply Qle_refl.
Qed.

Lemma includeBox_empty (b0 b1 b2 b3 : Q) :
  includeBox (b0, b1, b2, b3) emptyBounds = finiteBounds b0 b1 b2 b3.
Proof. reflexivity. Qed.

Lemma includeBox_finite (x0 x1 x2 x3 l t r b : Q) :
  includeBox (x0, x1, x2, x3) (finiteBounds l t r b) =
  finiteBounds (if negb (Qle_bool l x0) then x0 else l)
               (if negb (Qle_bool x1 t) then x1 else t)
               (if negb (Qle_bool x2 r) then x2 else r)
               (if negb (Qle_bool b x3) then x3 else b).
Proof.
  unfold includeBox, finiteBounds, num_gtb, num_ltb. simpl.
  destruct (Qle_bool l x0), (Qle_bool x1 t), (Qle_bool x2 r), (Qle_bool b x3);
    reflexivity.
Qed.

Lemma includeBox_union (bs : list box) : forall seen l t r b,
  isUnionBox l t r b seen ->
  exists l' t' r' b',
    fold_left (fun acc x => includeBox x acc) bs (finiteBounds l t r b)
      = finiteBounds l' t' r' b' /\
    isUnionBox l' t' r' b' (seen ++ bs)%list.
Proof.
  induction bs as [|[[[x0 x1] x2] x3] bs IH]; intros seen l t r b HU.
  - exists l, t, r, b. rewrite app_nil_r. auto.
  - destruct HU as (Hl & Ht & Hr & Hb). cbn [fold_left].
    rewrite includeBox_finite.
    edestruct (IH (seen ++ [(x0, x1, x2, x3)])%list) as (l' & t' & r' & b' & E & HU').
    + unfold isUnionBox. rewrite !map_app. simpl.
      split; [apply (isMinOf_step l x0), Hl|].
      split; [apply (isMaxOf_step t x1), Ht|].
      split; [apply (isMaxOf_step r x2), Hr|apply (isMinOf_step b x3), Hb].
    + exists l', t', r', b'. split; [exact E|].
      rewrite <- app_assoc in HU'. exact HU'.
Qed.

Lemma isUnionBox_singleton (b0 b1 b2 b3 : Q) :
  isUnionBox b0 b1 b2 b3 [(b0, b1, b2, b3)].
Proof.
  unfold isUnionBox, isMinOf, isMaxOf. simpl.
  repeat split; auto; intros y [<-|[]]; apply Qle_refl.
Qed.

(** The script's layer: its direct items are the list iterated over. *)
Lemma getLayerBounds_contributors (l : layer) (h : gset nat) :
  getLayerBounds l h =
    match contributors (layerItems l) h with
    | [] => None
    | bs =>
        let b := fold_left (fun acc x => includeBox x acc) bs emptyBounds in
        Some (bLeft b, bTop b, bRight b, bBottom b)
    end.
Proof.
  unfold getLayerBounds. rewrite collectBoundsRecursive_contributors.
  destruct (layerItems l) as [|it items] eqn:E; [reflexivity|].
  change (length (it :: items) =? 0)%nat with false. cbv iota.
  destruct (contributors (it :: items) h) as [|[[[b0 b1] b2] b3] bs]; [reflexivity|].
  cbn [fold_left]. rewrite includeBox_empty.
  destruct (includeBox_union bs [(b0, b1, b2, b3)] b0 b1 b2 b3
              (isUnionBox_singleton _ _ _ _)) as (l' & t' & r' & b' & -> & _).
  reflexivity.
Qed.

Lemma getLayerBounds_nonempty (l : layer) (h : gset nat) :
  contributors (layerItems l) h <> [] ->
  exists x t r b,
    getLayerBounds l h = Some (Finite x, Finite t, Finite r, Finite b) /\
    isUnionBox x t r b (contributors (layerItems l) h).
Proof.
  rewrite getLayerBounds_contributors.
  destruct (contributors (layerItems l) h) as [|[[[b0 b1] b2] b3] bs];
    [congruence|]. intros _.
  cbn [fold_left]. rewrite includeBox_empty.
  destruct (includeBox_union bs [(b0, b1, b2, b3)] b0 b1 b2 b3
              (isUnionBox_singleton _ _ _ _)) as (x & t & r & b & -> & HU).
  exists x, t, r, b. split; [reflexivity|exact HU].
Qed.

(** C6, as stated, fails: the aggregator does not descend into containers.
    The path inside the group is not hidden and its geometry can be read, so
    a union found by recursive descent is the path's box; the script reads
    the direct items of the layer only and returns "empty". *)
Lemma getLayerBounds_no_descent_counterexample :
  isHidden ∅ photoInGroup = false /\
  geometricBounds photoInGroup = Ok (0, 4, 4, 0)%Q /\
  specLayerBounds layerWithUnreadableGroup ∅ =
    Some (Finite 0, Finite 4, Finite 4, Finite 0) /\
  getLayerBounds layerWithUnreadableGroup ∅ = None /\
  getLayerBounds layerWithUnreadableGroup ∅ <>
    specLayerBounds layerWithUnreadableGroup ∅.
Proof. repeat split. discriminate. Qed.

(** C6, amended. The aggregator returns the union bounding box (left, top,
    right, bottom; top is the largest top and bottom the smallest bottom, so
    top is not below bottom when that holds of every contributing box) over
    the direct items of the layer that are not hidden and whose geometry can
    be read, each contributing the box the host reports for it; it does not
    descend into containers.  When no item contributes (empty layer, every
    item hidden) it returns "empty", and when a single item contributes it
    returns that item's own box. *)
Theorem getLayerBounds_union_of_direct_items (l : layer) (h : gset nat) :
  (contributors (layerItems l) h = [] -> getLayerBounds l h = None)
  /\ ((forall it, In it (layerItems l) -> isHidden h it = true) ->
      getLayerBounds l h = None)
  /\ (contributors (layerItems l) h <> [] ->
      exists x t r b,
        getLayerBounds l h = Some (Finite x, Finite t, Finite r, Finite b) /\
        isUnionBox x t r b (contributors (layerItems l) h) /\
        ((forall c, In c (contributors (layerItems l) h) ->
                    (boxBottom c <= boxTop c)%Q) -> (b <= t)%Q))
  /\ (forall b0 b1 b2 b3,
        contributors (layerItems l) h = [(b0, b1, b2, b3)] ->
        getLayerBounds l h = Some (Finite b0, Finite b1, Finite b2, Finite b3)).
Proof.
  rewrite getLayerBounds_contributors.
  split; [intros ->; reflexivity|]. split; [|split].
  - intros Hall.
    assert (E : contributors (layerItems l) h = []).
    { unfold contributors. induction (layerItems l) as [|it items IH]; [reflexivity|].
      simpl. rewrite (Hall it) by (left; reflexivity).
      apply IH. intros x Hx. apply Hall. right. exact Hx. }
    rewrite E. reflexivity.
  - intros Hne. rewrite <- getLayerBounds_contributors.
    destruct (getLayerBounds_nonempty l h Hne) as (x & t & r & b & E & HU).
    exists x, t, r, b. split; [exact E|]. split; [exact HU|].
    intros Hbt. destruct HU as (_ & [Ht _] & _ & [_ Hb]).
    apply in_map_iff in Ht as (c & <- & Hc).
    apply Qle_trans with (boxBottom c); [|auto].
    apply Hb, in_map, Hc.
  - intros b0 b1 b2 b3 ->. reflexivity.
Qed.

Lemma getLayerBounds_union_of_direct_items_witness :
  getLayerBounds {| layerName := "35"; layerItems := [] |} ∅ = None /\
  getLayerBounds layerOnePhoto {[1; 2]} = None /\
  (exists x t r b,
     getLayerBounds layerOnePhoto ∅ =
       Some (Finite x, Finite t, Finite r, Finite b) /\
     isUnionBox x t r b [(0, 10, 10, 0)%Q; (1, 9, 8, 2)%Q] /\ (b <= t)%Q) /\
  getLayerBounds layerOnePhoto {[1]} =
    Some (Finite 1, Finite 9, Finite 8, Finite 2).
Proof.
  split; [|split; [|split]].
  - destruct (getLayerBounds_union_of_direct_items
                {| layerName := "35"; layerItems := [] |} ∅) as (H & _).
    apply H. reflexivity.
  - destruct (getLayerBounds_union_of_direct_items layerOnePhoto {[1; 2]})
      as (_ & H & _).
    apply H. intros it [<-|[<-|[]]]; reflexivity.
  - destruct (getLayerBounds_union_of_direct_items layerOnePhoto ∅)
      as (_ & _ & H & _).
    destruct H as (x & t & r & b & E & HU & Hbt); [discriminate|].
    exists x, t, r, b. split; [exact E|]. split; [exact HU|].
    apply Hbt. intros c [<-|[<-|[]]]; discriminate.
  - destruct (getLayerBounds_union_of_direct_items layerOnePhoto {[1]})
      as (_ & _ & _ & H).
    apply H. reflexivity.
Defined.

(** ** Property-read faults *)

Lemma contributors_app (l1 l2 : list item) (h : gset nat) :
  contributors (l1 ++ l2)%list h = (contributors l1 h ++ contributors l2 h)%list.
Proof. unfold contributors. apply flat_map_app. Qed.

Lemma contributors_skip_unreadable (before after : list item) (it : item)
    (h : gset nat) :
  geometricBounds it = Throw ->
  contributors (before ++ it :: after)%list h = contributors (before ++ after)%list h.
Proof.
  intros Hg. rewrite !contributors_app. f_equal.
  change (it :: after) with ([it] ++ after)%list. rewrite contributors_app.
  unfold contributors at 1. simpl. rewrite Hg.
  destruct (isHidden h it); reflexivity.
Qed.

Lemma hideStep_faulty_colors (it : item) (st : hideState) :
  inspectColors it = Throw -> nameIsCutContour it = false ->
  hideStep it st = st.
Proof.
  intros Hc Hn. rewrite hideStep_unfold.
  rewrite (shouldHideItem_unnamed _ Hn), Hc.
  destruct (isHidden st.1 it); [reflexivity|].
  destruct (inspectColors_Throw_typename _ Hc) as [-> | ->]; reflexivity.
Qed.

(** C8. Faults raised by property reads stay inside the classifier and the
    bounds reader.  If inspecting an item's stroke or fill colour raises, the
    classifier answers what the name rule decided, which is false when the
    name did not match; the traversal then goes on with the items that
    follow.  If reading an item's geometry raises, the aggregator skips the
    item and goes on.  To the processing of a layer, an item with both faults
    and a name that matches no pattern is as if it were not there. *)
Theorem property_read_faults_swallowed :
  (forall it, inspectColors it = Throw ->
     shouldHideItem it = nameIsCutContour it /\
     (nameIsCutContour it = false -> shouldHideItem it = false))
  /\ (forall it before after st,
        inspectColors it = Throw -> nameIsCutContour it = false ->
        hideLoop (before ++ it :: after)%list st = hideLoop (before ++ after)%list st)
  /\ (forall it before after h acc,
        geometricBounds it = Throw ->
        collectBoundsRecursive (before ++ it :: after)%list h acc =
        collectBoundsRecursive (before ++ after)%list h acc)
  /\ (forall it before after h nm,
        geometricBounds it = Throw ->
        getLayerBounds {| layerName := nm; layerItems := (before ++ it :: after)%list |} h =
        getLayerBounds {| layerName := nm; layerItems := (before ++ after)%list |} h)
  /\ (forall exportFile numToString exportFolder n i nm it before after rs,
        inspectColors it = Throw -> nameIsCutContour it = false ->
        geometricBounds it = Throw ->
        processLayer exportFile numToString exportFolder n i
          {| layerName := nm; layerItems := (before ++ it :: after)%list |} rs =
        processLayer exportFile numToString exportFolder n i
          {| layerName := nm; layerItems := (before ++ after)%list |} rs).
Proof.
  assert (HB : forall it before after h nm,
             geometricBounds it = Throw ->
             getLayerBounds {| layerName := nm; layerItems := (before ++ it :: after)%list |} h =
             getLayerBounds {| layerName := nm; layerItems := (before ++ after)%list |} h).
  { intros it before after h nm Hg. rewrite !getLayerBounds_contributors. simpl.
    rewrite (contributors_skip_unreadable _ _ _ _ Hg). reflexivity. }
  assert (HT : forall it before after st,
             inspectColors it = Throw -> nameIsCutContour it = false ->
             hideLoop (before ++ it :: after)%list st = hideLoop (before ++ after)%list st).
  { intros it before after st Hc Hn.
    apply hideLoop_skip, hideStep_faulty_colors; assumption. }
  split; [|split; [exact HT|split; [|split; [exact HB|]]]].
  - intros it Hc. destruct (nameIsCutContour it) eqn:Hn.
    + split; [apply shouldHideItem_name, Hn|discriminate].
    + rewrite (shouldHideItem_unnamed _ Hn), Hc. auto.
  - intros it before after h acc Hg.
    rewrite !collectBoundsRecursive_contributors.
    rewrite (contributors_skip_unreadable _ _ _ _ Hg). reflexivity.
  - intros exportFile numToString exportFolder n i nm it before after rs Hc Hn Hg.
    unfold processLayer, exportResolved, hideAllCutContourItems. simpl.
    rewrite (HT _ _ _ _ Hc Hn), (HB _ _ _ _ _ Hg). reflexivity.
Qed.

Lemma property_read_faults_swallowed_witness :
  shouldHideItem faultyPath = false /\
  hideLoop [faultyPath; contourChild] (∅, []) = hideLoop [contourChild] (∅, []) /\
  getLayerBounds {| layerName := "35";
                    layerItems := [faultyPath; photoInGroup] |} ∅ =
    Some (Finite 0, Finite 4, Finite 4, Finite 0) /\
  retExported (exportByLayers (fun _ _ => true) (fun _ => "") "out"
                 [{| layerName := "35";
                     layerItems := [faultyPath; photoInGroup] |}]
                 {| visible := {[0]}; hidden := ∅ |}) = 1%nat.
Proof.
  destruct property_read_faults_swallowed as (H1 & H2 & _ & H4 & H5).
  split; [|split; [|split]].
  - apply H1; reflexivity.
  - apply (H2 faultyPath [] [contourChild]); reflexivity.
  - rewrite (H4 faultyPath [] [photoInGroup] ∅ "35" eq_refl). reflexivity.
  - unfold exportByLayers, layerLoop. simpl length.
    rewrite (H5 (fun _ _ => true) (fun _ => "") "out" 1%nat 0%nat "35"
                faultyPath [] [photoInGroup]); reflexivity.
Defined.

(** ** Product type detection *)

Lemma existsb_eqb_In (nm : string) (l : list string) :
  existsb (String.eqb nm) l = true <-> In nm l.
Proof.
  rewrite existsb_exists. split.
  - intros (x & Hx & E). apply String.eqb_eq in E. subst. exact Hx.
  - intros H. exists nm. split; [exact H|apply String.eqb_refl].
Qed.

Lemma detectStep_oneTouch (d : detected) (l : layer) :
  hasOneTouch (detectStep d l) = true <->
  hasOneTouch d = true \/ isOneTouchName (toLowerCase (trim (layerName l))).
Proof.
  unfold isOneTouchName. rewrite <- existsb_eqb_In.
  unfold detectStep. cbn [hasOneTouch].
  destruct (oneTouchPattern _), (existsb _ _), (hasOneTouch d); intuition congruence.
Qed.

Lemma detectStep_narrow (d : detected) (l : layer) :
  hasTopLoaderNarrow (detectStep d l) = true <->
  hasTopLoaderNarrow d = true \/ isNarrowName (toLowerCase (trim (layerName l))).
Proof.
  unfold isNarrowName. rewrite <- !String.eqb_eq.
  unfold detectStep. cbn [hasTopLoaderNarrow].
  destruct (_ =? "54x72"), (_ =? "toploader-narrow"), (_ =? "toploader_narrow"),
    (hasTopLoaderNarrow d); simpl; intuition congruence.
Qed.

Lemma detectStep_wide (d : detected) (l : layer) :
  hasTopLoaderWide (detectStep d l) = true <->
  hasTopLoaderWide d = true \/ isWideName (toLowerCase (trim (layerName l))).
Proof.
  unfold isWideName. rewrite <- !String.eqb_eq.
  unfold detectStep. cbn [hasTopLoaderWide].
  destruct (_ =? "76x102"), (_ =? "64x79"), (_ =? "toploader-wide"),
    (_ =? "toploader_wide"), (hasTopLoaderWide d); simpl; intuition congruence.
Qed.

Lemma docHas_cons (family : string -> Prop) (l : layer) (doc : document) :
  docHas family (l :: doc) <->
  family (toLowerCase (trim (layerName l))) \/ docHas family doc.
Proof.
  unfold docHas. split.
  - intros (x & [<-|Hx] & Hf); [left; exact Hf|right; eauto].
  - intros [Hf|(x & Hx & Hf)]; [exists l|exists x]; simpl; auto.
Qed.

Lemma detect_fold (doc : document) : forall d,
  let d' := fold_left detectStep doc d in
  (hasOneTouch d' = true <-> hasOneTouch d = true \/ docHas isOneTouchName doc) /\
  (hasTopLoaderNarrow d' = true <->
     hasTopLoaderNarrow d = true \/ docHas isNarrowName doc) /\
  (hasTopLoaderWide d' = true <->
     hasTopLoaderWide d = true \/ docHas isWideName doc).
Proof.
  induction doc as [|l doc IH]; intros d; simpl.
  - unfold docHas. repeat split; auto; intros [H|(x & [] & _)]; exact H.
  - destruct (IH (detectStep d l)) as (H1 & H2 & H3).
    rewrite H1, H2, H3, detectStep_oneTouch, detectStep_narrow, detectStep_wide,
      !docHas_cons.
    tauto.
Qed.

(** C10. detectProductType settles on a product type by mutual exclusion:
    it returns "toploader-narrow", "toploader-wide" or "onetouch" exactly
    when names of that family occur among the trimmed, lower-cased layer
    names and names of the other two families do not; it returns null
    exactly when no family occurs or two or more occur together. *)
Theorem detectProductType_mutually_exclusive (doc : document) :
  let narrow := docHas isNarrowName doc in
  let wide := docHas isWideName doc in
  let oneTouch := docHas isOneTouchName doc in
  (detectProductType doc = Some "toploader-narrow" <->
     narrow /\ ~ wide /\ ~ oneTouch)
  /\ (detectProductType doc = Some "toploader-wide" <->
        wide /\ ~ narrow /\ ~ oneTouch)
  /\ (detectProductType doc = Some "onetouch" <->
        oneTouch /\ ~ narrow /\ ~ wide)
  /\ (detectProductType doc = None <->
        (~ narrow /\ ~ wide /\ ~ oneTouch) \/
        (narrow /\ wide) \/ (narrow /\ oneTouch) \/ (wide /\ oneTouch))
  /\ (detectProductType doc = None \/
      detectProductType doc = Some "toploader-narrow" \/
      detectProductType doc = Some "toploader-wide" \/
      detectProductType doc = Some "onetouch").
Proof.
  intros narrow wide oneTouch. unfold detectProductType.
  destruct (detect_fold doc {| hasOneTouch := false; hasTopLoaderNarrow := false;
                               hasTopLoaderWide := false |}) as (H1 & H2 & H3).
  simpl in H1, H2, H3.
  fold narrow in H2. fold wide in H3. fold oneTouch in H1.
  destruct (hasOneTouch _), (hasTopLoaderNarrow _), (hasTopLoaderWide _); simpl;
    repeat split; intros; try discriminate; try tauto;
    try (intuition discriminate).
Qed.

(** ** Layer visibility across a run *)

Lemma setVisible_elem (j k : nat) (b : bool) (v : gset nat) :
  k ∈ setVisible j b v <-> (k = j /\ b = true) \/ (k <> j /\ k ∈ v).
Proof.
  unfold setVisible. destruct b.
  - destruct (decide (k = j)); set_solver.
  - destruct (decide (k = j)); set_solver.
Qed.

(** A loop assigning [f j] to the [visible] flag of every layer [j] in a
    range decides the flags inside the range and leaves the others. *)
Lemma setVisible_range (f : nat -> bool) (k : nat) : forall a v j,
  j ∈ fold_left (fun v j => setVisible j (f j) v) (seq a k) v <->
  (a <= j < a + k /\ f j = true) \/ (~ (a <= j < a + k) /\ j ∈ v).
Proof.
  induction k as [|k IH]; intros a v j; simpl.
  - split; [intros H; right; split; [lia|exact H]|intros [[H _]|[_ H]]; [lia|exact H]].
  - rewrite IH, setVisible_elem.
    destruct (decide (j = a)) as [->|Hne].
    + split.
      * intros [[H _]|[_ [[_ H]|[H _]]]]; [lia| |congruence].
        left. split; [lia|exact H].
      * intros [[_ H]|[H _]]; [|lia]. right. split; [lia|]. left. auto.
    + split.
      * intros [[H1 H2]|[H1 [[H2 _]|[_ H2]]]]; [|congruence|].
        -- left. split; [lia|exact H2].
        -- right. split; [lia|exact H2].
      * intros [[H1 H2]|[H1 H2]].
        -- left. split; [lia|exact H2].
        -- right. split; [lia|]. right. auto.
Qed.

Lemma showOnly_elem (n i j : nat) (v : gset nat) :
  j ∈ showOnly n i v <-> (j < n /\ j = i) \/ (n <= j /\ j ∈ v).
Proof.
  unfold showOnly. rewrite setVisible_range. rewrite Nat.eqb_eq.
  split; intros [[H1 H2]|[H1 H2]]; [left|right|left|right]; split; auto; lia.
Qed.

Lemma showOnly_isVisible (n i j : nat) (v : gset nat) :
  j < n -> isVisible (showOnly n i v) j = (j =? i)%nat.
Proof.
  intros Hj. unfold isVisible.
  destruct (Nat.eqb_spec j i) as [->|Hne].
  - apply bool_decide_eq_true, showOnly_elem. left. auto.
  - apply bool_decide_eq_false. rewrite showOnly_elem.
    intros [[_ H]|[H _]]; [congruence|lia].
Qed.

Lemma saveVisibility_lookup (n j : nat) (v : gset nat) :
  j < n -> saveVisibility n v !! j = Some (isVisible v j).
Proof.
  intros Hj. unfold saveVisibility.
  rewrite list_lookup_fmap, lookup_seq_lt by exact Hj. reflexivity.
Qed.

(** Writing the saved flags back undoes every change made to the flags of
    the document's layers. *)
Lemma restoreVisibility_saved (n : nat) (v0 v : gset nat) :
  (forall j, n <= j -> (j ∈ v <-> j ∈ v0)) ->
  restoreVisibility n (saveVisibility n v0) v = v0.
Proof.
  intros Habove. apply set_eq. intros j.
  unfold restoreVisibility. rewrite setVisible_range.
  destruct (decide (j < n)) as [Hlt|Hge].
  - rewrite (saveVisibility_lookup _ _ _ Hlt). simpl. unfold isVisible.
    rewrite bool_decide_eq_true.
    split; [intros [[_ H]|[H _]]; [exact H|lia]|intros H; left; split; [lia|exact H]].
  - split.
    + intros [[H _]|[_ H]]; [lia|]. apply Habove; [lia|exact H].
    + intros H. right. split; [lia|]. apply Habove; [lia|exact H].
Qed.

Lemma restore_after_hide (l : layer) (h : gset nat) :
  restoreItems (hideAllCutContourItems l (h, [])).2
               (hideAllCutContourItems l (h, [])).1 = h.
Proof.
  destruct (hideLoop_extends (layerItems l) (h, [])) as [added Hext].
  fold (hideAllCutContourItems l (h, [])) in Hext.
  pose proof Hext as (HL & _). simpl in HL. rewrite HL.
  apply (restoreItems_extends _ _ _ Hext).
Qed.

Section OrchestratorFacts.

Variable exportFile : docState -> exportRequest -> bool.
Variable numToString : number -> string.
Variable exportFolder : string.

Abbreviation processLayer' := (processLayer exportFile numToString exportFolder).
Abbreviation layerLoop' := (layerLoop exportFile numToString exportFolder).
Abbreviation exportByLayers' := (exportByLayers exportFile numToString exportFolder).

Lemma exportResolved_invariant (n i : nat) (l : layer) (s : docState)
    (rs : loopVars) (nm out : string) (bw bh : number) (bwText bhText : string) :
  i < n -> loopInvariant n s rs ->
  loopInvariant n s
    (exportResolved exportFile exportFolder n i l rs nm out bw bh bwText bhText).
Proof.
  intros Hi (Hv & Hh & Hlog). unfold exportResolved.
  assert (Hv' : forall j, n <= j ->
             (j ∈ showOnly n i (visible (flags rs)) <-> j ∈ visible s)).
  { intros j Hj. rewrite showOnly_elem, <- (Hv j Hj).
    split; [intros [[H _]|[_ H]]; [lia|exact H]|intros H; right; auto]. }
  assert (Hh' : restoreItems (hideAllCutContourItems l (hidden (flags rs), [])).2
                  (hideAllCutContourItems l (hidden (flags rs), [])).1 = hidden s).
  { rewrite restore_after_hide. exact Hh. }
  cbv zeta.
  destruct (getLayerBounds l _) as [[[[c0 c1] c2] c3]|];
    (split; [exact Hv'|split; [exact Hh'|]]); simpl; [|exact Hlog].
  apply Forall_app. split; [exact Hlog|].
  constructor; [|constructor].
  split; simpl; [exact Hi|]. intros j Hj. apply showOnly_isVisible, Hj.
Qed.

Lemma processLayer_invariant (n i : nat) (l : layer) (s : docState) (rs : loopVars) :
  i < n -> loopInvariant n s rs -> loopInvariant n s (processLayer' n i l rs).
Proof.
  intros Hi Hinv. unfold processLayer.
  destruct (resolveSize (trim (layerName l))) as [out bw bh| | |];
    auto using exportResolved_invariant.
Qed.

Lemma layerLoop_invariant (n : nat) (s : docState) (rest : list layer) :
  forall i rs,
    i + length rest = n -> loopInvariant n s rs ->
    loopInvariant n s (layerLoop' n i rest rs).
Proof.
  induction rest as [|l rest IH]; intros i rs Hn Hinv; simpl; [exact Hinv|].
  simpl in Hn. apply IH; [lia|]. apply processLayer_invariant; [lia|exact Hinv].
Qed.

Lemma exportByLayers_invariant (doc : document) (s : docState) :
  finalFlags (exportByLayers' doc s) = s /\
  Forall (onlyItsLayerVisible (length doc)) (exportCalls (exportByLayers' doc s)).
Proof.
  unfold exportByLayers. simpl.
  set (rs := layerLoop' _ _ _ _).
  assert (Hinv : loopInvariant (length doc) s rs).
  { apply layerLoop_invariant; [reflexivity|].
    split; [reflexivity|split; [reflexivity|constructor]]. }
  destruct Hinv as (Hv & Hh & Hlog).
  split; [|exact Hlog].
  rewrite (restoreVisibility_saved _ _ _ Hv), Hh. destruct s; reflexivity.
Qed.

End OrchestratorFacts.

(** C1. Whatever the document and whichever way each layer is processed
    (exported, skipped for an unmapped numeric name, ignored for a name that
    matches nothing, skipped for empty content, or rendered with a failure
    status), when exportByLayers returns every layer's [visible] flag is what
    it was before the run, and at every export call the layer being exported
    is the one visible layer of the document. *)
Theorem exportByLayers_layer_visibility
    (exportFile : docState -> exportRequest -> bool)
    (numToString : number -> string) (exportFolder : string)
    (doc : document) (s : docState) :
  let r := exportByLayers exportFile numToString exportFolder doc s in
  visible (finalFlags r) = visible s
  /\ (forall j, isVisible (visible (finalFlags r)) j = isVisible (visible s) j)
  /\ (forall ev, In ev (exportCalls r) ->
        evLayer ev < length doc /\
        isVisible (visible (evFlags ev)) (evLayer ev) = true /\
        forall j, j < length doc -> j <> evLayer ev ->
                  isVisible (visible (evFlags ev)) j = false).
Proof.
  intros r.
  destruct (exportByLayers_invariant exportFile numToString exportFolder doc s)
    as [Hflags Hlog].
  fold r in Hflags, Hlog. rewrite Hflags.
  split; [reflexivity|]. split; [reflexivity|].
  intros ev Hev. rewrite Forall_forall in Hlog.
  destruct (Hlog ev (proj2 (list_elem_of_In _ _) Hev)) as [Hlt Hvis].
  split; [exact Hlt|]. split.
  - rewrite (Hvis _ Hlt). apply Nat.eqb_refl.
  - intros j Hj Hne. rewrite (Hvis _ Hj). apply Nat.eqb_neq, Hne.
Qed.

(** ** End to end *)

Lemma contributors_In (items : list item) (h : gset nat) (it : item) (b : box) :
  In it items -> isHidden h it = false -> geometricBounds it = Ok b ->
  In b (contributors items h).
Proof.
  intros Hin Hh Hg. unfold contributors. apply in_flat_map.
  exists it. split; [exact Hin|]. rewrite Hh, Hg. left. reflexivity.
Qed.

Section EndToEnd.

Variable exportFile : docState -> exportRequest -> bool.
Variable numToString : number -> string.
Variable exportFolder : string.

Abbreviation processLayer'' := (processLayer exportFile numToString exportFolder).

Lemma processLayer_ignored (n i : nat) (l : layer) (rs : loopVars) :
  resolveSize (trim (layerName l)) = Ignored -> processLayer'' n i l rs = rs.
Proof. unfold processLayer. intros ->. reflexivity. Qed.

Lemma processLayer_unmapped (n i : nat) (l : layer) (rs : loopVars) :
  resolveSize (trim (layerName l)) = SkippedUnmapped ->
  processLayer'' n i l rs =
    {| flags := flags rs;
       exported := exported rs;
       results := (results rs ++
                   [trim (layerName l) +:+ ": SKIPPED (not in size mapping)"])%list;
       hiddenItemsTotal := hiddenItemsTotal rs;
       exportLog := exportLog rs |}.
Proof. unfold processLayer. intros ->. reflexivity. Qed.

Lemma exportResolved_exported (n i : nat) (l : layer) (rs : loopVars)
    (nm out : string) (bw bh : number) (bwText bhText : string) :
  exportable (layerItems l) (hidden (flags rs)) ->
  exists ev,
    exportResolved exportFile exportFolder n i l rs nm out bw bh bwText bhText =
      {| flags := {| visible := showOnly n i (visible (flags rs));
                     hidden := hidden (flags rs) |};
         exported := S (exported rs);
         results := (results rs ++
                     [nm +:+ " -> " +:+ out +:+ ".png (" +:+ bwText +:+ "x" +:+
                      bhText +:+ "pt with bleed)"])%list;
         hiddenItemsTotal :=
           (hiddenItemsTotal rs +
            length (hideAllCutContourItems l (hidden (flags rs), [])).2)%nat;
         exportLog := (exportLog rs ++ [ev])%list |} /\
    evLayer ev = i /\
    reqFilename (evRequest ev) = out +:+ ".png" /\
    hidden (evFlags ev) = (hideAllCutContourItems l (hidden (flags rs), [])).1 /\
    regionIs bw bh (layerItems l) (hidden (evFlags ev))
             (reqArtboard (evRequest ev)).
Proof.
  intros (Hnd & it & b & Hin & Hh & Hs & Hg).
  unfold exportResolved.
  set (st := hideAllCutContourItems l (hidden (flags rs), [])).
  assert (Hvis : isHidden st.1 it = false)
    by (apply direct_item_stays_visible; assumption).
  destruct (getLayerBounds_nonempty l st.1) as (x & t & r & b' & -> & HU).
  { intros E. pose proof (contributors_In _ _ _ _ Hin Hvis Hg) as Hc.
    rewrite E in Hc. destruct Hc. }
  subst st. cbv zeta. rewrite restore_after_hide.
  eexists. split; [reflexivity|]. simpl.
  split; [reflexivity|]. split; [reflexivity|]. split; [reflexivity|].
  exists x, t, r, b'. split; [exact HU|reflexivity].
Qed.

Lemma processLayer_exported (n i : nat) (l : layer) (rs : loopVars)
    (out : string) (bw bh : number) :
  resolveSize (trim (layerName l)) = Resolved out bw bh ->
  exportable (layerItems l) (hidden (flags rs)) ->
  exists ev,
    processLayer'' n i l rs =
      {| flags := {| visible := showOnly n i (visible (flags rs));
                     hidden := hidden (flags rs) |};
         exported := S (exported rs);
         results := (results rs ++
                     [trim (layerName l) +:+ " -> " +:+ out +:+ ".png (" +:+
                      numToString bw +:+ "x" +:+ numToString bh
                      +:+ "pt with bleed)"])%list;
         hiddenItemsTotal :=
           (hiddenItemsTotal rs +
            length (hideAllCutContourItems l (hidden (flags rs), [])).2)%nat;
         exportLog := (exportLog rs ++ [ev])%list |} /\
    evLayer ev = i /\
    reqFilename (evRequest ev) = out +:+ ".png" /\
    hidden (evFlags ev) = (hideAllCutContourItems l (hidden (flags rs), [])).1 /\
    regionIs bw bh (layerItems l) (hidden (evFlags ev))
             (reqArtboard (evRequest ev)).
Proof.
  intros Hres Hex. unfold processLayer. rewrite Hres.
  apply exportResolved_exported, Hex.
Qed.

Lemma processLayer_inherited (n i : nat) (l : layer) (rs : loopVars) :
  resolveSize (trim (layerName l)) = ResolvedInherited ->
  exportable (layerItems l) (hidden (flags rs)) ->
  exists ev,
    processLayer'' n i l rs =
      {| flags := {| visible := showOnly n i (visible (flags rs));
                     hidden := hidden (flags rs) |};
         exported := S (exported rs);
         results := (results rs ++
                     [trim (layerName l) +:+
                      " -> undefined.png (undefinedxundefinedpt with bleed)"])%list;
         hiddenItemsTotal :=
           (hiddenItemsTotal rs +
            length (hideAllCutContourItems l (hidden (flags rs), [])).2)%nat;
         exportLog := (exportLog rs ++ [ev])%list |} /\
    evLayer ev = i /\
    reqFilename (evRequest ev) = "undefined.png" /\
    reqArtboard (evRequest ev) = (NaN, NaN, NaN, NaN).
Proof.
  intros Hres Hex. unfold processLayer. rewrite Hres.
  destruct (exportResolved_exported n i l rs (trim (layerName l)) "undefined"
              NaN NaN "undefined" "undefined" Hex)
    as (ev & E & HL & HF & _ & (x & t & r & b & _ & HR)).
  exists ev. split; [rewrite E; reflexivity|].
  split; [exact HL|]. split; [exact HF|].
  rewrite HR. unfold artboardRect. cbn [num_div].
  rewrite !num_add_NaN, !num_sub_NaN. reflexivity.
Qed.

End EndToEnd.

(** C5, as stated, fails: the "35" layer contains a non-hidden item with
    readable geometry, yet that item is a cut contour line, the traversal
    hides it, the layer is found empty and skipped, and one file is
    exported, not two. *)
Lemma end_to_end_contour_only_layer_counterexample :
  let r := exportByLayers (fun _ _ => true) (fun _ => "") "out"
                          contourOnlyDoc allLayersVisible in
  layerName <$> contourOnlyDoc = ["35"; "999"; "abc"; "54x72"] /\
  Forall (fun l => exists it, In it (layerItems l) /\
                     isHidden (hidden allLayersVisible) it = false /\
                     geometricBounds it = Ok (0, 10, 10, 0)%Q) contourOnlyDoc /\
  Forall (fun ev => evStatus ev = true) (exportCalls r) /\
  retExported r = 1%nat /\
  (fun ev => reqFilename (evRequest ev)) <$> exportCalls r = ["54x72.png"] /\
  retDetails r = ["35: SKIPPED (empty layer)";
                  "999: SKIPPED (not in size mapping)";
                  "54x72 -> 54x72.png (xpt with bleed)"].
Proof.
  cbv zeta. split; [reflexivity|]. split.
  - repeat constructor; eexists; (split; [left; reflexivity|split; reflexivity]).
  - split; [repeat constructor|]. repeat split.
Qed.

(** C5, amended. For a document whose layers are named "35", "999", "abc"
    and "54x72", where the "35" and "54x72" layers each have, as a direct
    item, at least one non-hidden item that is not classified as cut contour
    and has readable geometry (the page items of a layer being distinct
    objects), whatever status the renderer reports, the run makes exactly
    two export requests: "79x90.png", made for the first layer with its cut
    contour items hidden, for the region of 85.04 by 95.67, and "54x72.png",
    made likewise for the fourth layer, for the region of 57 by 75.  The
    region of w by h is the rectangle built around the centre of the bounds
    of the layer's visible items, half of w to the left and to the right and
    half of h above and below, in the arithmetic of the script.  The outcome
    list has the two success lines and one skip-with-warning line for "999"
    and no line for "abc"; the exported count is 2; and the flags of the
    document are as before the run. *)
Theorem end_to_end_four_layers
    (exportFile : docState -> exportRequest -> bool)
    (numToString : number -> string) (exportFolder : string)
    (items35 items999 itemsAbc items54 : list item) (s : docState) :
  exportable items35 (hidden s) ->
  exportable items54 (hidden s) ->
  let l35 := {| layerName := "35"; layerItems := items35 |} in
  let l54 := {| layerName := "54x72"; layerItems := items54 |} in
  let doc := [ l35;
               {| layerName := "999"; layerItems := items999 |};
               {| layerName := "abc"; layerItems := itemsAbc |};
               l54 ] in
  let r := exportByLayers exportFile numToString exportFolder doc s in
  (exists e1 e2,
     exportCalls r = [e1; e2] /\
     evLayer e1 = 0%nat /\ reqFilename (evRequest e1) = "79x90.png" /\
     hidden (evFlags e1) = (hideAllCutContourItems l35 (hidden s, [])).1 /\
     regionIs (literal 85.04) (literal 95.67) items35 (hidden (evFlags e1))
              (reqArtboard (evRequest e1)) /\
     evLayer e2 = 3%nat /\ reqFilename (evRequest e2) = "54x72.png" /\
     hidden (evFlags e2) = (hideAllCutContourItems l54 (hidden s, [])).1 /\
     regionIs (Finite 57) (Finite 75) items54 (hidden (evFlags e2))
              (reqArtboard (evRequest e2)))
  /\ retDetails r =
       [ "35 -> 79x90.png (" +:+ numToString (literal 85.04) +:+ "x" +:+
           numToString (literal 95.67) +:+ "pt with bleed)";
         "999: SKIPPED (not in size mapping)";
         "54x72 -> 54x72.png (" +:+ numToString (Finite 57) +:+ "x" +:+
           numToString (Finite 75) +:+ "pt with bleed)" ]
  /\ retExported r = 2%nat
  /\ finalFlags r = s.
Proof.
  intros H35 H54 l35 l54 doc r.
  destruct (exportByLayers_invariant exportFile numToString exportFolder doc s)
    as [Hflags _].
  fold r in Hflags.
  split; [|split; [|split; [|exact Hflags]]]; subst r doc l35 l54;
    unfold exportByLayers; cbn [length layerLoop];
    set (rs0 := {| flags := s; exported := 0; results := [];
                   hiddenItemsTotal := 0; exportLog := [] |});
    destruct (processLayer_exported exportFile numToString exportFolder 4 0
                {| layerName := "35"; layerItems := items35 |} rs0
                "79x90" (literal 85.04) (literal 95.67) eq_refl H35)
      as (e1 & -> & L1 & F1 & V1 & R1);
    rewrite (processLayer_unmapped exportFile numToString exportFolder 4 1
               {| layerName := "999"; layerItems := items999 |} _ eq_refl);
    rewrite (processLayer_ignored exportFile numToString exportFolder 4 2
               {| layerName := "abc"; layerItems := itemsAbc |} _ eq_refl);
    match goal with
    | |- context [processLayer _ _ _ 4 3 ?l ?rs] =>
        destruct (processLayer_exported exportFile numToString exportFolder 4 3
                    l rs "54x72" (Finite 57) (Finite 75) eq_refl H54)
          as (e2 & -> & L2 & F2 & V2 & R2)
    end.
  - exists e1, e2. simpl. repeat split; assumption.
  - reflexivity.
  - reflexivity.
Qed.

Lemma end_to_end_four_layers_witness :
  let r := exportByLayers (fun _ _ => true) (fun _ => "n") "out"
                          fourLayerDoc allLayersVisible in
  (exists e1 e2,
     exportCalls r = [e1; e2] /\
     evLayer e1 = 0%nat /\ reqFilename (evRequest e1) = "79x90.png" /\
     regionIs (literal 85.04) (literal 95.67)
              [mkPath 1 "photo" (0, 10, 10, 0)%Q;
               mkPath 5 "CutContour" (-2, 12, 12, -2)%Q]
              (hidden (evFlags e1)) (reqArtboard (evRequest e1)) /\
     evLayer e2 = 3%nat /\ reqFilename (evRequest e2) = "54x72.png" /\
     regionIs (Finite 57) (Finite 75) [mkPath 4 "photo" (0, 10, 10, 0)%Q]
              (hidden (evFlags e2)) (reqArtboard (evRequest e2)))
  /\ retDetails r = [ "35 -> 79x90.png (nxnpt with bleed)";
                      "999: SKIPPED (not in size mapping)";
                      "54x72 -> 54x72.png (nxnpt with bleed)" ]
  /\ retExported r = 2%nat
  /\ finalFlags r = allLayersVisible
  /\ (fun ev => hidden (evFlags ev)) <$> exportCalls r = [{[5]}; ∅]
  /\ (fun ev => reqArtboard (evRequest ev)) <$> exportCalls r =
       [ artboardRect (Finite 0) (Finite 10) (Finite 10) (Finite 0)
                      (literal 85.04) (literal 95.67);
         (Finite (-47 # 2), Finite (85 # 2), Finite (67 # 2), Finite (-65 # 2)) ].
Proof.
  destruct (end_to_end_four_layers (fun _ _ => true) (fun _ => "n") "out"
              [mkPath 1 "photo" (0, 10, 10, 0)%Q;
               mkPath 5 "CutContour" (-2, 12, 12, -2)%Q]
              [mkPath 2 "photo" (0, 10, 10, 0)%Q]
              [mkPath 3 "photo" (0, 10, 10, 0)%Q]
              [mkPath 4 "photo" (0, 10, 10, 0)%Q]
              allLayersVisible)
    as ((e1 & e2 & Hc & L1 & F1 & _ & R1 & L2 & F2 & _ & R2) & Hd & He & Hf).
  - split.
    + apply (bool_decide_unpack _). vm_compute. exact I.
    + exists (mkPath 1 "photo" (0, 10, 10, 0)%Q), (0, 10, 10, 0)%Q.
      split; [left; reflexivity|]. split; [reflexivity|].
      split; reflexivity.
  - split.
    + apply (bool_decide_unpack _). vm_compute. exact I.
    + exists (mkPath 4 "photo" (0, 10, 10, 0)%Q), (0, 10, 10, 0)%Q.
      split; [left; reflexivity|]. split; [reflexivity|].
      split; reflexivity.
  - cbv zeta.
    split; [|split; [exact Hd|split; [exact He|split; [exact Hf|split]]]].
    + exists e1, e2. split; [exact Hc|]. repeat split; assumption.
    + vm_compute. reflexivity.
    + vm_compute. reflexivity.
Defined.

(** * Further properties of the script *)

(** ** What the hide traversal achieves *)

Lemma contourFree_unfold (h : gset nat) (it : item) :
  contourFree h it =
    isHidden h it ||
    (negb (shouldHideItem it) &&
     match typename it with
     | GroupItem => forallb (contourFree h) (pageItems it)
     | _ => true
     end).
Proof. destruct it as [i nm ty s sc f fc g children]. destruct ty; reflexivity. Qed.

Lemma isHidden_mono (h h' : gset nat) (it : item) :
  h ⊆ h' -> isHidden h it = true -> isHidden h' it = true.
Proof.
  unfold isHidden. intros Hsub Hh. apply bool_decide_eq_true in Hh.
  apply bool_decide_eq_true. set_solver.
Qed.

Lemma extends_subset (st st' : hideState) (added : list item) :
  extends st st' added -> st.1 ⊆ st'.1.
Proof. intros (_ & H & _). rewrite H. set_solver. Qed.

(** Hiding more items keeps a tree free of visible contour items. *)
Lemma contourFree_mono (h h' : gset nat) (it : item) :
  h ⊆ h' -> contourFree h it = true -> contourFree h' it = true.
Proof.
  intros Hsub. induction it as [it IH] using item_tree_ind.
  rewrite !contourFree_unfold. intros H.
  apply orb_true_iff in H as [H|H].
  - rewrite (isHidden_mono _ _ _ Hsub H). reflexivity.
  - apply andb_true_iff in H as [Hs Hc]. rewrite Hs. simpl.
    apply orb_true_iff. right.
    destruct (typename it); auto.
    rewrite forallb_forall in *. intros x Hx.
    rewrite Forall_forall in IH. apply IH; [apply list_elem_of_In, Hx|auto].
Qed.

Lemma hideLoop_contourFree_of (l : list item) :
  Forall (fun it => forall st, contourFree (hideStep it st).1 it = true) l ->
  forall st, forallb (contourFree (hideLoop l st).1) l = true.
Proof.
  induction 1 as [|x rest Hx _ IH]; intros st; [reflexivity|].
  rewrite hideLoop_cons. cbn [forallb]. rewrite IH, andb_true_r.
  destruct (hideLoop_extends rest (hideStep x st)) as [b Hb].
  exact (contourFree_mono _ _ _ (extends_subset _ _ _ Hb) (Hx st)).
Qed.

Lemma hideStep_contourFree (it : item) :
  forall st, contourFree (hideStep it st).1 it = true.
Proof.
  induction it as [it IH] using item_tree_ind. intros st.
  rewrite contourFree_unfold, hideStep_unfold.
  destruct (isHidden st.1 it) eqn:Hh; [rewrite Hh; reflexivity|].
  destruct (shouldHideItem it) eqn:Hs.
  - simpl. unfold isHidden. rewrite bool_decide_eq_true_2 by set_solver.
    reflexivity.
  - simpl. apply orb_true_iff. right.
    destruct (typename it); auto.
    apply hideLoop_contourFree_of, IH.
Qed.

Lemma hideLoop_contourFree (l : list item) (st : hideState) :
  forallb (contourFree (hideLoop l st).1) l = true.
Proof.
  apply hideLoop_contourFree_of, Forall_forall. intros x _.
  apply hideStep_contourFree.
Qed.

(** A tree with no visible contour item is left alone by the traversal. *)
Lemma hideStep_contourFree_fixed (it : item) : forall st,
  contourFree st.1 it = true -> hideStep it st = st.
Proof.
  induction it as [it IH] using item_tree_ind. intros st.
  rewrite contourFree_unfold, hideStep_unfold.
  destruct (isHidden st.1 it); [reflexivity|]. simpl.
  destruct (shouldHideItem it); [discriminate|]. simpl.
  destruct (typename it); auto.
  unfold hideAllCutContourItemsInGroup. intros Hall.
  rewrite Forall_forall in IH.
  induction (pageItems it) as [|x rest IHr]; [reflexivity|].
  simpl in Hall. apply andb_true_iff in Hall as [Hx Hrest].
  rewrite hideLoop_cons, (IH x) by (auto; left).
  apply IHr; [intros y Hy; apply IH; right; exact Hy|exact Hrest].
Qed.

Lemma hideLoop_contourFree_fixed (l : list item) (st : hideState) :
  forallb (contourFree st.1) l = true -> hideLoop l st = st.
Proof.
  induction l as [|x rest IH]; intros Hall; [reflexivity|].
  simpl in Hall. apply andb_true_iff in Hall as [Hx Hrest].
  rewrite hideLoop_cons, (hideStep_contourFree_fixed _ _ Hx). auto.
Qed.

(** X1. After the hide traversal of a layer, no item of the layer that the
    host would draw is classified as cut contour: every direct item is
    hidden, or is not classified and, when it is a Group, the same holds of
    its children in turn.  In particular every classified direct item of the
    layer is hidden, and so is every item that was hidden before. *)
Theorem hide_traversal_leaves_no_visible_contour (l : layer) (h : gset nat) :
  let st := hideAllCutContourItems l (h, []) in
  Forall (fun it => contourFree st.1 it = true) (layerItems l)
  /\ Forall (fun it => shouldHideItem it = true -> isHidden st.1 it = true)
            (layerItems l)
  /\ h ⊆ st.1.
Proof.
  intros st.
  pose proof (hideLoop_contourFree (layerItems l) (h, [])) as Hall.
  fold (hideAllCutContourItems l (h, [])) in Hall. fold st in Hall.
  rewrite forallb_forall in Hall.
  split; [|split].
  - apply Forall_forall. intros x Hx. apply Hall, list_elem_of_In, Hx.
  - apply Forall_forall. intros x Hx Hs.
    specialize (Hall x (proj1 (list_elem_of_In _ _) Hx)).
    rewrite contourFree_unfold, Hs in Hall. simpl in Hall.
    rewrite orb_false_r in Hall. exact Hall.
  - destruct (hideLoop_extends (layerItems l) (h, [])) as [a Ha].
    exact (extends_subset _ _ _ Ha).
Qed.

(** X2. The hide traversal is idempotent: run again over the same layer,
    with the flags and the ledger the first run left, it hides nothing more
    and appends nothing to the ledger. *)
Theorem hide_traversal_idempotent (l : layer) (h : gset nat) :
  let st := hideAllCutContourItems l (h, []) in
  hideAllCutContourItems l st = st.
Proof.
  intros st. unfold hideAllCutContourItems.
  apply hideLoop_contourFree_fixed. apply hideLoop_contourFree.
Qed.

Lemma hideLoop_added_NoDup_of (l : list item) :
  Forall (fun it => forall st added,
            extends st (hideStep it st) added -> NoDup (itemId <$> added)) l ->
  forall st added,
    extends st (hideLoop l st) added -> NoDup (itemId <$> added).
Proof.
  induction 1 as [|y rest Hy _ IH]; intros st added Hext.
  - rewrite (extends_added_unique _ _ _ _ Hext (extends_refl st)). constructor.
  - rewrite hideLoop_cons in Hext.
    destruct (hideStep_extends y st) as [a Ha].
    destruct (hideLoop_extends rest (hideStep y st)) as [b Hb].
    rewrite (extends_added_unique _ _ _ _ Hext (extends_trans _ _ _ _ _ Ha Hb)).
    rewrite fmap_app. apply NoDup_app. split; [exact (Hy _ _ Ha)|].
    split; [|exact (IH _ _ Hb)].
    intros i Hi Hi'.
    apply list_elem_of_fmap in Hi' as (x & -> & Hx).
    destruct Hb as (_ & _ & Fb). apply (Fb x (proj1 (list_elem_of_In _ _) Hx)).
    destruct Ha as (_ & -> & _). apply elem_of_union_l.
    unfold idsOf. apply elem_of_list_to_set. exact Hi.
Qed.

Lemma hideStep_added_NoDup (it : item) : forall st added,
  extends st (hideStep it st) added -> NoDup (itemId <$> added).
Proof.
  induction it as [it IH] using item_tree_ind. intros st added.
  rewrite hideStep_unfold.
  destruct (isHidden st.1 it).
  { intros Hext. rewrite (extends_added_unique _ _ _ _ Hext (extends_refl st)).
    constructor. }
  destruct (shouldHideItem it).
  - intros (HL & _). simpl in HL. apply app_inv_head in HL. subst added.
    apply NoDup_singleton.
  - destruct (typename it);
      try (intros Hext;
           rewrite (extends_added_unique _ _ _ _ Hext (extends_refl st));
           constructor).
    apply hideLoop_added_NoDup_of, IH.
Qed.

Lemma hideLoop_added_NoDup (l : list item) (st : hideState) (added : list item) :
  extends st (hideLoop l st) added -> NoDup (itemId <$> added).
Proof.
  apply hideLoop_added_NoDup_of, Forall_forall. intros y _.
  apply hideStep_added_NoDup.
Qed.

(** X3. The ledger of a traversal counts what the traversal hid: no object
    is recorded twice, every recorded item is classified as cut contour and
    comes from the layer's tree, and the number of hidden items grows by the
    length of the ledger. *)
Theorem ledger_counts_newly_hidden (l : layer) (h : gset nat) :
  let st := hideAllCutContourItems l (h, []) in
  NoDup (itemId <$> st.2)
  /\ size st.1 = (size h + length st.2)%nat
  /\ Forall (fun x => shouldHideItem x = true /\ In x (allItems (layerItems l)))
            st.2.
Proof.
  intros st.
  destruct (hideLoop_extends (layerItems l) (h, [])) as [added Hext].
  pose proof (hideLoop_added_NoDup _ _ _ Hext) as Hnd.
  pose proof (hideLoop_added _ _ _ Hext) as Hfrom.
  fold (hideAllCutContourItems l (h, [])) in Hext. fold st in Hext.
  destruct Hext as (HL & HH & HF). simpl in HL, HH, HF.
  rewrite HL, HH. split; [exact Hnd|]. split.
  - rewrite size_union.
    + unfold idsOf. rewrite size_list_to_set by exact Hnd.
      rewrite length_fmap. lia.
    + intros i Hi Hh. apply idsOf_elem in Hi as (x & Hx & <-).
      exact (HF x Hx Hh).
  - apply Forall_forall. intros x Hx. apply list_elem_of_In in Hx.
    destruct (Hfrom x Hx). auto.
Qed.

(** ** What a run of exportByLayers keeps and counts *)

Lemma StronglySorted_snoc (l : list nat) (i : nat) :
  StronglySorted lt l -> Forall (fun x => x < i) l ->
  StronglySorted lt (l ++ [i])%list.
Proof.
  induction 1 as [|x l Hs IH Hx]; intros Hall; simpl.
  - repeat constructor.
  - apply Forall_cons in Hall as [Hxi Hall].
    constructor; [apply IH, Hall|].
    apply Forall_app. split; [exact Hx|]. repeat constructor. exact Hxi.
Qed.

Lemma accounted_next (i : nat) (rs : loopVars) :
  accounted i rs -> accounted (S i) rs.
Proof.
  intros (H1 & H2 & H3 & H4 & H5). repeat split; auto.
  eapply Forall_impl; [exact H4|]. simpl. intros ev Hev. lia.
Qed.


Section RunFacts.

Variable exportFile : docState -> exportRequest -> bool.
Variable numToString : number -> string.
Variable exportFolder : string.

Abbreviation processLayer3 := (processLayer exportFile numToString exportFolder).
Abbreviation layerLoop3 := (layerLoop exportFile numToString exportFolder).
Abbreviation exportByLayers3 := (exportByLayers exportFile numToString exportFolder).

Lemma exportResolved_accounted (n i : nat) (l : layer) (rs : loopVars)
    (nm out : string) (bw bh : number) (bwText bhText : string) :
  accounted i rs ->
  accounted (S i)
    (exportResolved exportFile exportFolder n i l rs nm out bw bh bwText bhText).
Proof.
  intros Hacc. pose proof (accounted_next _ _ Hacc) as Hnext.
  destruct Hacc as (H1 & H2 & H3 & H4 & H5).
  unfold exportResolved. cbv zeta.
  destruct (getLayerBounds l _) as [[[[c0 c1] c2] c3]|];
    unfold accounted; simpl; rewrite ?length_app; simpl;
    destruct Hnext as (_ & _ & _ & H4' & _).
  - split; [lia|]. split; [lia|]. split; [lia|]. split.
    + apply Forall_app. split; [exact H4'|]. repeat constructor.
    + rewrite map_app. simpl. apply StronglySorted_snoc; [exact H5|].
      apply Forall_forall. intros x Hx. apply list_elem_of_In in Hx.
      apply in_map_iff in Hx as (ev & <- & Hev).
      rewrite Forall_forall in H4. apply H4, list_elem_of_In, Hev.
  - repeat split; auto; lia.
Qed.

Lemma processLayer_accounted (n i : nat) (l : layer) (rs : loopVars) :
  accounted i rs -> accounted (S i) (processLayer3 n i l rs).
Proof.
  intros Hacc. pose proof (accounted_next _ _ Hacc) as Hnext.
  unfold processLayer.
  destruct (resolveSize (trim (layerName l))) as [out bw bh| | |];
    [apply exportResolved_accounted, Hacc
    |apply exportResolved_accounted, Hacc
    |
    |exact Hnext].
  destruct Hacc as (H1 & H2 & H3 & H4 & H5).
  unfold accounted; simpl; rewrite length_app; simpl.
  destruct Hnext as (_ & _ & _ & H4' & _).
  repeat split; auto; lia.
Qed.

Lemma layerLoop_accounted (n : nat) (rest : list layer) : forall i rs,
  accounted i rs -> accounted (i + length rest) (layerLoop3 n i rest rs).
Proof.
  induction rest as [|l rest IH]; intros i rs Hacc; simpl.
  - rewrite Nat.add_0_r. exact Hacc.
  - replace (i + S (length rest))%nat with (S i + length rest)%nat by lia.
    apply IH, processLayer_accounted, Hacc.
Qed.

Lemma exportResolved_calls (doc : document) (h0 : gset nat) (n i : nat)
    (l : layer) (rs : loopVars) (out : string) (bw bh : number)
    (bwText bhText : string) :
  doc !! i = Some l ->
  hidden (flags rs) = h0 ->
  resolvesTo (trim (layerName l)) out bw bh ->
  Forall (exportCallOf exportFile exportFolder doc h0) (exportLog rs) ->
  let rs' := exportResolved exportFile exportFolder n i l rs
               (trim (layerName l)) out bw bh bwText bhText in
  hidden (flags rs') = h0 /\
  Forall (exportCallOf exportFile exportFolder doc h0) (exportLog rs').
Proof.
  intros Hl Hh Hres Hlog. unfold exportResolved. cbv zeta.
  rewrite Hh.
  destruct (getLayerBounds l _) as [[[[c0 c1] c2] c3]|] eqn:Hb; simpl;
    (split; [apply restore_after_hide|]); [|exact Hlog].
  apply Forall_app. split; [exact Hlog|]. constructor; [|constructor].
  exists l, out, bw, bh, c0, c1, c2, c3. simpl.
  repeat split; auto.
Qed.

Lemma processLayer_calls (doc : document) (h0 : gset nat) (n i : nat)
    (l : layer) (rs : loopVars) :
  doc !! i = Some l ->
  hidden (flags rs) = h0 ->
  Forall (exportCallOf exportFile exportFolder doc h0) (exportLog rs) ->
  hidden (flags (processLayer3 n i l rs)) = h0 /\
  Forall (exportCallOf exportFile exportFolder doc h0)
         (exportLog (processLayer3 n i l rs)).
Proof.
  intros Hl Hh Hlog. unfold processLayer.
  destruct (resolveSize (trim (layerName l))) as [out bw bh| | |] eqn:Hres;
    [| |split; assumption|split; assumption].
  - apply exportResolved_calls; auto. left. exact Hres.
  - apply exportResolved_calls; auto. right. auto.
Qed.

Lemma layerLoop_calls (doc : document) (h0 : gset nat) (n : nat)
    (rest : list layer) : forall prefix rs,
  doc = (prefix ++ rest)%list ->
  hidden (flags rs) = h0 ->
  Forall (exportCallOf exportFile exportFolder doc h0) (exportLog rs) ->
  Forall (exportCallOf exportFile exportFolder doc h0)
         (exportLog (layerLoop3 n (length prefix) rest rs)).
Proof.
  induction rest as [|l rest IH]; intros prefix rs Hdoc Hh Hlog; simpl;
    [exact Hlog|].
  destruct (processLayer_calls doc h0 n (length prefix) l rs) as [Hh' Hlog'];
    auto.
  { rewrite Hdoc. unfold document. rewrite lookup_app_r by lia.
    rewrite Nat.sub_diag. reflexivity. }
  replace (S (length prefix)) with (length (prefix ++ [l])%list)
    by (rewrite length_app; simpl; lia).
  apply IH; auto. rewrite <- app_assoc. exact Hdoc.
Qed.

Lemma exportByLayers_calls (doc : document) (s : docState) :
  Forall (exportCallOf exportFile exportFolder doc (hidden s))
         (exportCalls (exportByLayers3 doc s)).
Proof.
  unfold exportByLayers. simpl.
  apply (layerLoop_calls doc (hidden s) (length doc) doc []); auto.
Qed.

Lemma exportByLayers_accounted (doc : document) (s : docState) :
  accounted (length doc)
    (layerLoop3 (length doc) 0 doc
       {| flags := s; exported := 0; results := [];
          hiddenItemsTotal := 0; exportLog := [] |}).
Proof.
  apply (layerLoop_accounted (length doc) doc 0).
  unfold accounted. simpl. repeat split; auto; constructor.
Qed.

End RunFacts.

(** X4. Whatever the document, the renderer and the layer names, when
    exportByLayers returns every flag of the document is what it was before
    the run: the [hidden] flag of every item as well as the [visible] flag of
    every layer. *)
Theorem exportByLayers_restores_all_flags
    (exportFile : docState -> exportRequest -> bool)
    (numToString : number -> string) (exportFolder : string)
    (doc : document) (s : docState) :
  finalFlags (exportByLayers exportFile numToString exportFolder doc s) = s.
Proof.
  apply (exportByLayers_invariant exportFile numToString exportFolder doc s).
Qed.

(** X5. The bookkeeping of a run: the returned count of exported layers is
    the number of export calls made; there is at most one outcome line per
    layer and one for every export; the "no layers found" alert is shown
    exactly when no export call was made; and the calls are made in layer
    order, no layer being exported twice. *)
Theorem exportByLayers_bookkeeping
    (exportFile : docState -> exportRequest -> bool)
    (numToString : number -> string) (exportFolder : string)
    (doc : document) (s : docState) :
  let r := exportByLayers exportFile numToString exportFolder doc s in
  retExported r = length (exportCalls r)
  /\ (retExported r <= length (retDetails r))%nat
  /\ (length (retDetails r) <= length doc)%nat
  /\ (alerted r = true <-> exportCalls r = [])
  /\ Forall (fun ev => evLayer ev < length doc) (exportCalls r)
  /\ StronglySorted lt (map evLayer (exportCalls r)).
Proof.
  intros r.
  destruct (exportByLayers_accounted exportFile numToString exportFolder doc s)
    as (H1 & H2 & H3 & H4 & H5).
  subst r. unfold exportByLayers. simpl.
  repeat split; auto.
  - intros Ha. apply Nat.eqb_eq in Ha. rewrite H1 in Ha.
    destruct (exportLog _); [reflexivity|discriminate].
  - intros Hn. apply Nat.eqb_eq. rewrite H1, Hn. reflexivity.
Qed.

Lemma contributors_nonempty_item (items : list item) (h : gset nat) :
  contributors items h <> [] ->
  exists it b, In it items /\ isHidden h it = false /\ geometricBounds it = Ok b.
Proof.
  unfold contributors. induction items as [|x items IH]; simpl; [congruence|].
  destruct (isHidden h x) eqn:Hh.
  - intros Hne. destruct (IH Hne) as (it & b & Hin & H1 & H2).
    exists it, b. auto.
  - destruct (geometricBounds x) as [b|] eqn:Hg.
    + intros _. exists x, b. auto.
    + intros Hne. destruct (IH Hne) as (it & b' & Hin & H1 & H2).
      exists it, b'. auto.
Qed.

(** X6. What the renderer is shown at every export call: the call is for a
    layer of the document; every item that was hidden before the run is
    still hidden; no item of the layer that would be drawn is classified as
    cut contour; and the layer has, among its direct items, at least one
    that is not hidden and has readable geometry. *)
Theorem export_calls_show_no_contour
    (exportFile : docState -> exportRequest -> bool)
    (numToString : number -> string) (exportFolder : string)
    (doc : document) (s : docState) :
  Forall (fun ev =>
            exists l,
              doc !! evLayer ev = Some l /\
              hidden s ⊆ hidden (evFlags ev) /\
              Forall (fun it => contourFree (hidden (evFlags ev)) it = true)
                     (layerItems l) /\
              exists it b,
                In it (layerItems l) /\
                isHidden (hidden (evFlags ev)) it = false /\
                geometricBounds it = Ok b)
         (exportCalls (exportByLayers exportFile numToString exportFolder doc s)).
Proof.
  eapply Forall_impl;
    [apply (exportByLayers_calls exportFile numToString exportFolder doc s)|].
  intros ev (l & out & bw & bh & c0 & c1 & c2 & c3 & Hl & _ & Hh & Hb & _).
  exists l. split; [exact Hl|]. rewrite Hh in *.
  split; [|split].
  - destruct (hideLoop_extends (layerItems l) (hidden s, [])) as [a Ha].
    exact (extends_subset _ _ _ Ha).
  - pose proof (hideLoop_contourFree (layerItems l) (hidden s, [])) as Hall.
    rewrite forallb_forall in Hall. apply Forall_forall.
    intros x Hx. apply Hall, list_elem_of_In, Hx.
  - apply contributors_nonempty_item. intros E.
    rewrite getLayerBounds_contributors, E in Hb. discriminate.
Qed.


(** ** Names: classification, trimming, letter case *)

Lemma prefix_app (p s : string) :
  String.prefix p s = true <-> exists b, s = p +:+ b.
Proof.
  revert s. induction p as [|c p IH]; intros s.
  - destruct s; simpl; (split; [intros _; eexists; reflexivity|reflexivity]).
  - destruct s as [|d s]; simpl;
      [split; [discriminate|intros (b & H); discriminate]|].
    destruct (ascii_dec c d) as [->|Hne].
    + rewrite IH. split; intros (b & H); exists b.
      * rewrite H. reflexivity.
      * simpl in H. injection H as H. exact H.
    + split; [discriminate|]. intros (b & H). simpl in H.
      injection H as H _. symmetry in H. contradiction.
Qed.

(** [indexOf] finds a pattern exactly when the pattern occurs in the
    string. *)
Lemma indexOf_contains (s p : string) :
  (exists n, indexOf s p = Some n) <-> exists a b, s = a +:+ p +:+ b.
Proof.
  unfold indexOf. induction s as [|c s IH].
  - simpl. destruct p as [|d p].
    + split; [intros _; exists "", ""; reflexivity|].
      intros _. exists 0%nat. reflexivity.
    + split; [intros (n & H); discriminate|].
      intros (a & b & H). destruct a; discriminate.
  - change (index 0 p (String c s))
      with (if String.prefix p (String c s) then Some 0%nat
            else match index 0 p s with
                 | Some n => Some (S n)
                 | None => None
                 end).
    destruct (String.prefix p (String c s)) eqn:Hp.
    + split; [|intros _; exists 0%nat; reflexivity].
      intros _. apply prefix_app in Hp as (b & Hb).
      exists "", b. exact Hb.
    + split.
      * intros (n & H). destruct (index 0 p s) as [m|] eqn:Hi; [|discriminate].
        destruct (proj1 IH (ex_intro _ m eq_refl)) as (a & b & ->).
        exists (String c a), b. reflexivity.
      * intros (a & b & H). destruct a as [|d a].
        -- assert (Hp' : String.prefix p (String c s) = true)
             by (apply prefix_app; exists b; exact H).
           congruence.
        -- injection H as -> ->.
           destruct (proj2 IH (ex_intro _ a (ex_intro _ b eq_refl))) as (m & ->).
           eauto.
Qed.

Lemma toLowerCase_app (a b : string) :
  toLowerCase (a +:+ b) = toLowerCase a +:+ toLowerCase b.
Proof. induction a as [|c a IH]; simpl; [reflexivity|rewrite IH; reflexivity]. Qed.

Lemma append_assoc3 (a b c : string) : (a +:+ b) +:+ c = a +:+ (b +:+ c).
Proof.
  induction a as [|x a IH]; [reflexivity|].
  change (String x ((a +:+ b) +:+ c) = String x (a +:+ (b +:+ c))).
  rewrite IH. reflexivity.
Qed.

Lemma isCutContourName_lower (nm : string) :
  isCutContourName nm = true <->
  exists p, In p cutContourPatterns /\
            exists a b, toLowerCase nm = a +:+ p +:+ b.
Proof.
  assert (Hpat : forall p, In p cutContourPatterns -> p <> "").
  { intros p Hp ->. simpl in Hp. intuition discriminate. }
  unfold isCutContourName. destruct nm as [|c nm].
  - simpl. split; [discriminate|].
    intros (p & Hp & a & b & H). exfalso. apply (Hpat p Hp).
    destruct a; [destruct p; [reflexivity|discriminate]|discriminate].
  - change (String c nm =? "") with false. cbv iota.
    rewrite existsb_exists. split.
    + intros (p & Hp & H). exists p. split; [exact Hp|].
      apply indexOf_contains.
      destruct (indexOf (toLowerCase (String c nm)) p) as [n|]; [eauto|discriminate].
    + intros (p & Hp & Hab). exists p. split; [exact Hp|].
      apply indexOf_contains in Hab as (n & ->). reflexivity.
Qed.

(** X8. The name rule of the classifier is a case-insensitive substring
    test: a name is a cut-contour name exactly when its lower-cased form
    contains one of the configured patterns.  So two names that differ in
    letter case only are classified alike, and a name stays a cut-contour
    name whatever is put before or after it. *)
Theorem isCutContourName_substring_any_case :
  (forall nm,
     isCutContourName nm = true <->
     exists p a b, In p cutContourPatterns /\ toLowerCase nm = a +:+ p +:+ b)
  /\ (forall n1 n2,
        toLowerCase n1 = toLowerCase n2 ->
        isCutContourName n1 = isCutContourName n2)
  /\ (forall a m b,
        isCutContourName m = true -> isCutContourName (a +:+ m +:+ b) = true).
Proof.
  split; [|split].
  - intros nm. rewrite isCutContourName_lower.
    split; [intros (p & Hp & a & b & H)|intros (p & a & b & Hp & H)]; eauto 6.
  - intros n1 n2 E.
    destruct (isCutContourName n1) eqn:H1, (isCutContourName n2) eqn:H2;
      try reflexivity.
    + apply isCutContourName_lower in H1. rewrite E in H1.
      apply isCutContourName_lower in H1. congruence.
    + apply isCutContourName_lower in H2. rewrite <- E in H2.
      apply isCutContourName_lower in H2. congruence.
  - intros a m b H. apply isCutContourName_lower in H as (p & Hp & x & y & E).
    apply isCutContourName_lower. exists p. split; [exact Hp|].
    exists (toLowerCase a +:+ x), (y +:+ toLowerCase b).
    rewrite !toLowerCase_app, E, !append_assoc3. reflexivity.
Qed.

Lemma isCutContourName_substring_any_case_witness :
  isCutContourName "Outer THRU-CUT path" = true /\
  isCutContourName "KISS CUT" = isCutContourName "kiss cut".
Proof.
  destruct isCutContourName_substring_any_case as (H1 & H2 & H3).
  split.
  - apply (H3 "Outer " "THRU-CUT" " path"). reflexivity.
  - apply H2. reflexivity.
Defined.

Lemma trimStart_spec (s : string) :
  exists a, allWhitespace a = true /\ s = a +:+ trimStart s /\
            match trimStart s with
            | "" => True
            | String c _ => isWhitespace c = false
            end.
Proof.
  induction s as [|c s IH]; [exists ""; repeat split|].
  destruct IH as (a & Ha & E & Hh).
  simpl. destruct (isWhitespace c) eqn:Hc.
  - exists (String c a). split; [simpl; rewrite Hc, Ha; reflexivity|].
    split; [|exact Hh].
    change (String c s = String c (a +:+ trimStart s)). rewrite <- E. reflexivity.
  - exists "". split; [reflexivity|]. split; [reflexivity|exact Hc].
Qed.

Lemma trimEnd_spec (s : string) :
  exists b, allWhitespace b = true /\ s = trimEnd s +:+ b /\
            match lastChar (trimEnd s) with
            | Some c => isWhitespace c = false
            | None => True
            end.
Proof.
  induction s as [|c s IH]; [exists ""; repeat split|].
  destruct IH as (b & Hb & E & Hl).
  simpl. destruct (trimEnd s) as [|d t] eqn:Et.
  - change (s = b) in E. subst s. destruct (isWhitespace c) eqn:Hc.
    + exists (String c b). split; [simpl; rewrite Hc, Hb; reflexivity|].
      split; [reflexivity|exact I].
    + exists b. split; [exact Hb|]. split; [reflexivity|exact Hc].
  - exists b. split; [exact Hb|]. split; [|exact Hl].
    change (String c s = String c (String d t +:+ b)). rewrite <- E. reflexivity.
Qed.

Lemma trimEnd_fixed (u : string) :
  match lastChar u with
  | Some c => isWhitespace c = false
  | None => True
  end -> trimEnd u = u.
Proof.
  induction u as [|c u IH]; [reflexivity|].
  destruct u as [|d u]; simpl.
  - intros ->. reflexivity.
  - intros H. simpl in IH. rewrite (IH H). reflexivity.
Qed.

Lemma trimEnd_head (c : ascii) (s : string) :
  isWhitespace c = false -> exists t, trimEnd (String c s) = String c t.
Proof.
  intros Hc. simpl. destruct (trimEnd s); [rewrite Hc|]; eauto.
Qed.

Lemma trimStart_fixed (u : string) :
  match u with
  | "" => True
  | String c _ => isWhitespace c = false
  end -> trimStart u = u.
Proof. destruct u as [|c u]; [reflexivity|]. simpl. intros ->. reflexivity. Qed.

Lemma trim_head (s : string) :
  match trim s with
  | "" => True
  | String c _ => isWhitespace c = false
  end.
Proof.
  unfold trim. destruct (trimStart_spec s) as (a & _ & _ & Hh).
  destruct (trimStart s) as [|c t]; [exact I|].
  destruct (trimEnd_head c t Hh) as (u & ->). exact Hh.
Qed.

(** X9. Trimming removes white space around a layer name and nothing else:
    the name is its trimmed form with white space before and after; the
    trimmed form neither begins nor ends with white space; and trimming
    again changes nothing.  White space is what [\s] matches among the code
    units below 256: tab, line feed, vertical tab, form feed, carriage
    return, space and no-break space. *)
Theorem trim_strips_surrounding_whitespace (s : string) :
  (exists a b, allWhitespace a = true /\ allWhitespace b = true /\
               s = a +:+ trim s +:+ b)
  /\ match trim s with
     | "" => True
     | String c _ => isWhitespace c = false
     end
  /\ match lastChar (trim s) with
     | Some c => isWhitespace c = false
     | None => True
     end
  /\ trim (trim s) = trim s.
Proof.
  pose proof (trim_head s) as Hhead. unfold trim in *.
  destruct (trimStart_spec s) as (a & Ha & Ea & _).
  destruct (trimEnd_spec (trimStart s)) as (b & Hb & Eb & Hl).
  split; [|split; [exact Hhead|split; [exact Hl|]]].
  - exists a, b. split; [exact Ha|]. split; [exact Hb|].
    rewrite <- Eb. exact Ea.
  - rewrite (trimStart_fixed _ Hhead). apply trimEnd_fixed, Hl.
Qed.








Lemma docHas_normalizedNames (family : string -> Prop) (doc : document) :
  docHas family doc <-> exists nm, In nm (normalizedNames doc) /\ family nm.
Proof.
  unfold docHas, normalizedNames. split.
  - intros (l & Hl & Hf). eexists. split; [|exact Hf].
    apply in_map_iff. exists l. auto.
  - intros (nm & Hnm & Hf). apply in_map_iff in Hnm as (l & <- & Hl). eauto.
Qed.

Lemma bool_eq_of_iff (a b : bool) (P Q : Prop) :
  (a = true <-> P) -> (b = true <-> Q) -> (P <-> Q) -> a = b.
Proof. destruct a, b; intuition congruence. Qed.

(** X11. detectProductType depends on the set of trimmed, lower-cased layer
    names only: two documents with the same such names, in whatever order,
    letter case, padding or multiplicity, get the same product type. *)
Theorem detectProductType_depends_on_name_set (doc doc' : document) :
  (forall nm, In nm (normalizedNames doc) <-> In nm (normalizedNames doc')) ->
  detectProductType doc = detectProductType doc'.
Proof.
  intros Hsame.
  assert (Hfam : forall family, docHas family doc <-> docHas family doc').
  { intros family. rewrite !docHas_normalizedNames.
    split; intros (nm & Hnm & Hf); exists nm; (split; [apply Hsame, Hnm|exact Hf]). }
  unfold detectProductType.
  set (d0 := {| hasOneTouch := false; hasTopLoaderNarrow := false;
                hasTopLoaderWide := false |}).
  destruct (detect_fold doc d0) as (A1 & A2 & A3).
  destruct (detect_fold doc' d0) as (B1 & B2 & B3).
  simpl in A1, A2, A3, B1, B2, B3.
  assert (E1 : hasOneTouch (fold_left detectStep doc d0) =
               hasOneTouch (fold_left detectStep doc' d0)).
  { eapply bool_eq_of_iff; [exact A1|exact B1|]. rewrite (Hfam isOneTouchName).
    reflexivity. }
  assert (E2 : hasTopLoaderNarrow (fold_left detectStep doc d0) =
               hasTopLoaderNarrow (fold_left detectStep doc' d0)).
  { eapply bool_eq_of_iff; [exact A2|exact B2|]. rewrite (Hfam isNarrowName).
    reflexivity. }
  assert (E3 : hasTopLoaderWide (fold_left detectStep doc d0) =
               hasTopLoaderWide (fold_left detectStep doc' d0)).
  { eapply bool_eq_of_iff; [exact A3|exact B3|]. rewrite (Hfam isWideName).
    reflexivity. }
  rewrite E1, E2, E3. reflexivity.
Qed.

Lemma detectProductType_depends_on_name_set_witness :
  detectProductType [ {| layerName := " 54X72"; layerItems := [] |};
                      {| layerName := "TopLoader_Narrow "; layerItems := [] |};
                      {| layerName := "54x72"; layerItems := [] |} ] =
  detectProductType [ {| layerName := "toploader_narrow"; layerItems := [] |};
                      {| layerName := "54x72"; layerItems := [photoInGroup] |} ].
Proof.
  apply detectProductType_depends_on_name_set.
  intros nm. simpl. tauto.
Defined.

(** ** The script body *)

Lemma rootFolderOf_cons (c : ascii) (s : string) :
  rootFolderOf (String c s) =
    if Ascii.eqb c "-" then "" else String c (rootFolderOf s).
Proof.
  unfold rootFolderOf. simpl.
  destruct (Ascii.eqb c "-"); [reflexivity|].
  destruct (splitChar "-" s); reflexivity.
Qed.

(** X12. The root folder of a proof number is the part before its first
    dash: it holds no dash; the proof number is the root folder alone or the
    root folder, a dash and a rest; a proof number without a dash is its own
    root folder; and every proof number made of a dash-free root, a dash and
    any suffix goes to that root's folder. *)
Theorem rootFolderOf_before_first_dash :
  (forall pn, hasChar "-" (rootFolderOf pn) = false)
  /\ (forall pn, pn = rootFolderOf pn \/
                 exists rest, pn = rootFolderOf pn +:+ "-" +:+ rest)
  /\ (forall pn, hasChar "-" pn = false -> rootFolderOf pn = pn)
  /\ (forall root rest,
        hasChar "-" root = false -> rootFolderOf (root +:+ "-" +:+ rest) = root).
Proof.
  split; [|split; [|split]].
  - induction pn as [|c pn IH]; [reflexivity|].
    rewrite rootFolderOf_cons. destruct (Ascii.eqb c "-") eqn:Ec; [reflexivity|].
    simpl. rewrite Ec, IH. reflexivity.
  - induction pn as [|c pn IH]; [left; reflexivity|].
    rewrite rootFolderOf_cons. destruct (Ascii.eqb c "-") eqn:Ec.
    + right. exists pn. apply Ascii.eqb_eq in Ec. subst c. reflexivity.
    + destruct IH as [IH|(rest & IH)].
      * left. rewrite <- IH. reflexivity.
      * right. exists rest.
        change (String c pn = String c (rootFolderOf pn +:+ "-" +:+ rest)).
        rewrite <- IH. reflexivity.
  - induction pn as [|c pn IH]; [reflexivity|]. simpl. intros H.
    apply orb_false_iff in H as [Hc Hpn].
    rewrite rootFolderOf_cons, Hc, (IH Hpn). reflexivity.
  - induction root as [|c root IH]; intros rest H.
    + reflexivity.
    + simpl in H. apply orb_false_iff in H as [Hc Hroot].
      change (rootFolderOf (String c (root +:+ "-" +:+ rest)) = String c root).
      rewrite rootFolderOf_cons, Hc, (IH rest Hroot). reflexivity.
Qed.

Lemma rootFolderOf_before_first_dash_witness :
  rootFolderOf "6843470155" = "6843470155" /\
  rootFolderOf ("6843470155" +:+ "-" +:+ "1-b") = "6843470155".
Proof.
  destruct rootFolderOf_before_first_dash as (_ & _ & H3 & H4).
  split; [apply H3|apply H4]; reflexivity.
Defined.



Lemma showAll_elem (n j : nat) (v : gset nat) :
  j ∈ showAll n v <-> j < n \/ j ∈ v.
Proof.
  unfold showAll. rewrite (setVisible_range (fun _ => true)).
  split.
  - intros [[H _]|[_ H]]; [left; lia|right; exact H].
  - destruct (decide (j < n)) as [Hlt|Hge].
    + intros _. left. split; [lia|reflexivity].
    + intros [H|H]; [lia|]. right. split; [lia|exact H].
Qed.

(** X14. savePDF turns every layer of the document visible before saving
    and does not turn any back: after it, whatever status it returns, each
    layer is visible, the flags of the items are untouched, and the status is
    true exactly when the save call, made on the document with all layers
    visible, did not raise.  It leaves the layer flags as they were only if
    all layers were visible already. *)
Theorem savePDF_leaves_all_layers_visible
    (saveAs : docState -> string -> result unit)
    (doc : document) (s : docState) (pdfPath : string) :
  let out := savePDF saveAs doc s pdfPath in
  (forall j, j ∈ visible out.2 <-> j < length doc \/ j ∈ visible s)
  /\ hidden out.2 = hidden s
  /\ (out.1 = true <-> saveAs out.2 pdfPath = Ok tt)
  /\ (visible out.2 = visible s <-> forall j, j < length doc -> j ∈ visible s).
Proof.
  intros out.
  assert (E : out.2 = {| visible := showAll (length doc) (visible s);
                         hidden := hidden s |}).
  { subst out. unfold savePDF. destruct (saveAs _ _); reflexivity. }
  rewrite E. simpl. split; [intros j; apply showAll_elem|].
  split; [reflexivity|]. split.
  - subst out. unfold savePDF.
    destruct (saveAs _ pdfPath) as [[]|]; simpl; split; congruence.
  - split.
    + intros Hv j Hj. rewrite <- Hv. apply showAll_elem. left. exact Hj.
    + intros Hall. apply set_eq. intros j. rewrite showAll_elem.
      split; [intros [H|H]; auto|auto].
Qed.

Section ScriptFacts.

Variable exportFile : docState -> exportRequest -> bool.
Variable numToString : number -> string.
Variable fsName : string -> string.
Variable folderExists : string -> bool.
Variable createZip : string -> string -> bool.
Variable saveAs : docState -> string -> result unit.

Abbreviation runScript' :=
  (runScript exportFile numToString fsName folderExists createZip saveAs).

Lemma ensureFolder_calls (path : string) :
  Forall (fun c => exists p, c = CreateFolder p) (ensureFolder folderExists path) /\
  (length (ensureFolder folderExists path) <= 1)%nat.
Proof.
  unfold ensureFolder. destruct (folderExists path); simpl.
  - split; [constructor|lia].
  - split; [repeat constructor; eauto|lia].
Qed.

Lemma exported_positive_iff (exportFolder : string) (doc : document)
    (s : docState) :
  (0 <? retExported (exportByLayers exportFile numToString exportFolder doc s))%nat
    = true <->
  exportCalls (exportByLayers exportFile numToString exportFolder doc s) <> [].
Proof.
  destruct (exportByLayers_accounted exportFile numToString exportFolder doc s)
    as (H1 & _).
  unfold exportByLayers. simpl. rewrite H1, Nat.ltb_lt.
  destruct (exportLog _); simpl; split; try congruence; lia.
Qed.

End ScriptFacts.

(** X15. The flags a run of the script leaves on the document, once a proof
    number has been entered: the [hidden] flag of every item is as before;
    when no layer was exported the [visible] flags are as before too; when
    at least one was, the PDF step has left every layer of the document
    visible, whether the layer was visible before or not. *)
Theorem runScript_final_flags
    (exportFile : docState -> exportRequest -> bool)
    (numToString : number -> string)
    (fsName : string -> string) (folderExists : string -> bool)
    (createZip : string -> string -> bool)
    (saveAs : docState -> string -> result unit)
    (doc : document) (s : docState) (proofNumber : string) :
  proofNumber <> "" ->
  let o := runScript exportFile numToString fsName folderExists createZip saveAs
                     (Some (doc, s)) (Some proofNumber) in
  exists r s',
    exportRun o = Some r /\ flagsAfter o = Some s' /\
    hidden s' = hidden s /\
    (exportCalls r = [] -> s' = s) /\
    (exportCalls r <> [] ->
       forall j, j ∈ visible s' <-> j < length doc \/ j ∈ visible s).
Proof.
  intros Hne o. subst o. unfold runScript.
  destruct proofNumber as [|c pn]; [congruence|].
  set (folder := fsName (_ +:+ "/" +:+ _ +:+ _ +:+ "_exports")).
  pose proof (exported_positive_iff exportFile numToString folder doc s) as Hpos.
  pose proof (exportByLayers_invariant exportFile numToString folder doc s)
    as [Hflags _].
  set (r := exportByLayers exportFile numToString folder doc s) in *.
  destruct (0 <? retExported r)%nat eqn:Hex; cbv iota zeta;
    cbn [exportRun flagsAfter].
  - exists r. eexists. split; [reflexivity|]. split; [reflexivity|].
    rewrite Hflags.
    assert (E : forall p, (savePDF saveAs doc s p).2 =
                  {| visible := showAll (length doc) (visible s);
                     hidden := hidden s |}).
    { intros p. unfold savePDF. destruct (saveAs _ _); reflexivity. }
    rewrite E. simpl. split; [reflexivity|]. split.
    + intros Hnil. exfalso. apply (proj1 Hpos eq_refl). exact Hnil.
    + intros _ j. apply showAll_elem.
  - exists r, (finalFlags r). split; [reflexivity|]. split; [reflexivity|].
    rewrite Hflags. split; [reflexivity|]. split; [reflexivity|].
    intros Hcalls. apply Hpos in Hcalls. congruence.
Qed.

Lemma runScript_final_flags_witness :
  exists r s',
    exportRun (runScript (fun _ _ => true) (fun _ => "n") (fun p => p)
                 (fun _ => false) (fun _ _ => true) (fun _ _ => Ok tt)
                 (Some (fourLayerDoc, {| visible := {[0]}; hidden := {[2]} |}))
                 (Some "6843470155-1")) = Some r /\
    flagsAfter (runScript (fun _ _ => true) (fun _ => "n") (fun p => p)
                  (fun _ => false) (fun _ _ => true) (fun _ _ => Ok tt)
                  (Some (fourLayerDoc, {| visible := {[0]}; hidden := {[2]} |}))
                  (Some "6843470155-1")) = Some s' /\
    hidden s' = {[2]} /\
    (exportCalls r <> [] ->
     forall j, j ∈ visible s' <-> j < 4 \/ j ∈ ({[0]} : gset nat)).
Proof.
  destruct (runScript_final_flags (fun _ _ => true) (fun _ => "n") (fun p => p)
              (fun _ => false) (fun _ _ => true) (fun _ _ => Ok tt)
              fourLayerDoc {| visible := {[0]}; hidden := {[2]} |}
              "6843470155-1")
    as (r & s' & Hr & Hs & Hh & _ & Hv); [discriminate|].
  exists r, s'. split; [exact Hr|]. split; [exact Hs|]. split; [exact Hh|].
  exact Hv.
Defined.

(** X16. The host calls of a run of the script.  Without an open document,
    or with the prompt cancelled or left empty, the script shows one alert
    and does nothing else.  With a proof number it creates at most the two
    folders, runs the export into the export folder, and then: if no layer
    was exported it makes no further call; if at least one was, it asks for
    the archive of that same export folder, next saves the PDF copy, and
    last shows the summary, whatever the status of the archive and of the
    PDF. *)
Theorem runScript_host_calls
    (exportFile : docState -> exportRequest -> bool)
    (numToString : number -> string)
    (fsName : string -> string) (folderExists : string -> bool)
    (createZip : string -> string -> bool)
    (saveAs : docState -> string -> result unit) :
  let run := runScript exportFile numToString fsName folderExists createZip
                       saveAs in
  (forall answer,
     run None answer =
       {| hostCalls := [Alert "Please open a document first."];
          exportRun := None; flagsAfter := None |})
  /\ (forall doc s answer,
        answer = None \/ answer = Some "" ->
        run (Some (doc, s)) answer =
          {| hostCalls := [Alert "Proof number is required."];
             exportRun := None; flagsAfter := Some s |})
  /\ (forall doc s proofNumber,
        proofNumber <> "" ->
        let suffix := match detectProductType doc with
                      | Some t => "-" +:+ t
                      | None => ""
                      end in
        let outputFolder :=
          fsName (basePath +:+ "/" +:+ rootFolderOf proofNumber) in
        let exportFolder :=
          fsName (outputFolder +:+ "/" +:+ proofNumber +:+ suffix +:+ "_exports") in
        let o := run (Some (doc, s)) (Some proofNumber) in
        exists r folders,
          exportRun o = Some r /\
          r = exportByLayers exportFile numToString exportFolder doc s /\
          Forall (fun ev => reqPath (evRequest ev) =
                            exportFolder +:+ "/" +:+ reqFilename (evRequest ev))
                 (exportCalls r) /\
          Forall (fun c => exists p, c = CreateFolder p) folders /\
          (length folders <= 2)%nat /\
          (exportCalls r = [] -> hostCalls o = folders) /\
          (exportCalls r <> [] ->
             exists zipCreated pdfSaved msg,
               hostCalls o =
                 (folders ++
                  [CreateZip exportFolder
                     (outputFolder +:+ "/" +:+ proofNumber +:+ suffix +:+
                      "_exports.zip") zipCreated;
                   SavePDF (outputFolder +:+ "/" +:+ proofNumber +:+ suffix +:+
                            "-MasterArtwork.pdf") pdfSaved;
                   Alert msg])%list)).
Proof.
  intros run. subst run. split; [reflexivity|]. split.
  - intros doc s answer [-> | ->]; reflexivity.
  - intros doc s proofNumber Hne suffix outputFolder exportFolder o.
    subst o. unfold runScript.
    destruct proofNumber as [|c pn]; [congruence|].
    fold suffix. fold outputFolder. fold exportFolder.
    pose proof (exported_positive_iff exportFile numToString exportFolder doc s)
      as Hpos.
    set (r := exportByLayers exportFile numToString exportFolder doc s) in *.
    set (folders := (ensureFolder folderExists _ ++ ensureFolder folderExists _)%list).
    assert (Hfolders : Forall (fun c => exists p, c = CreateFolder p) folders /\
                       (length folders <= 2)%nat).
    { subst folders. rewrite length_app.
      match goal with
      | |- context [(ensureFolder _ ?a ++ ensureFolder _ ?b)%list] =>
          destruct (ensureFolder_calls folderExists a) as [Fa La];
          destruct (ensureFolder_calls folderExists b) as [Fb Lb]
      end.
      split; [apply Forall_app; auto|lia]. }
    destruct Hfolders as [Hf Hl].
    assert (Hpaths : Forall (fun ev => reqPath (evRequest ev) =
                               exportFolder +:+ "/" +:+ reqFilename (evRequest ev))
                            (exportCalls r)).
    { eapply Forall_impl;
        [apply (exportByLayers_calls exportFile numToString exportFolder doc s)|].
      intros ev (l & out & bw & bh & c0 & c1 & c2 & c3 & _ & _ & _ & _ & Hfn & Hp & _).
      rewrite Hfn. exact Hp. }
    exists r, folders.
    destruct (0 <? retExported r)%nat eqn:Hex; cbv iota zeta;
      cbn [exportRun hostCalls];
      (split; [reflexivity|split; [reflexivity|split; [exact Hpaths|]]]);
      (split; [exact Hf|split; [exact Hl|]]).
    + split; [intros Hnil; exfalso; apply (proj1 Hpos eq_refl); exact Hnil|].
      intros _. do 3 eexists. reflexivity.
    + split; [reflexivity|]. intros Hcalls. apply Hpos in Hcalls. congruence.
Qed.

Lemma runScript_host_calls_witness :
  runScript (fun _ _ => true) (fun _ => "n") (fun p => p) (fun _ => false)
            (fun _ _ => true) (fun _ _ => Ok tt)
            (Some (fourLayerDoc, allLayersVisible)) (Some "") =
    {| hostCalls := [Alert "Proof number is required."];
       exportRun := None; flagsAfter := Some allLayersVisible |} /\
  exists r folders,
    exportRun (runScript (fun _ _ => true) (fun _ => "n") (fun p => p)
                 (fun _ => false) (fun _ _ => false) (fun _ _ => Throw)
                 (Some (fourLayerDoc, allLayersVisible))
                 (Some "6843470155-1")) = Some r /\
    Forall (fun c => exists p, c = CreateFolder p) folders /\
    (length folders <= 2)%nat.
Proof.
  split.
  - apply (runScript_host_calls (fun _ _ => true) (fun _ => "n") (fun p => p)
             (fun _ => false) (fun _ _ => true) (fun _ _ => Ok tt)).
    right. reflexivity.
  - destruct (runScript_host_calls (fun _ _ => true) (fun _ => "n") (fun p => p)
                (fun _ => false) (fun _ _ => false) (fun _ _ => Throw))
      as (_ & _ & H).
    destruct (H fourLayerDoc allLayersVisible "6843470155-1")
      as (r & folders & Hr & _ & _ & Hf & Hl & _); [discriminate|].
    exists r, folders. auto.
Defined.

(** ** More on size resolution and on the count of hidden items *)





(** X20. A layer named after a member that every object inherits (toString,
    constructor, valueOf and the like) is taken for an entry of the size
    table.  When the layer has content to export, the loop body counts an
    export and asks for the file "undefined.png" with an artboard whose four
    coordinates are NaN, reports the bleed as "undefinedxundefined", and
    leaves the hidden flags as they were. *)
Theorem inherited_member_layer_exported
    (exportFile : docState -> exportRequest -> bool)
    (numToString : number -> string) (exportFolder : string)
    (n i : nat) (l : layer) (rs : loopVars) :
  In (trim (layerName l)) inheritedMembers ->
  exportable (layerItems l) (hidden (flags rs)) ->
  let rs' := processLayer exportFile numToString exportFolder n i l rs in
  exported rs' = S (exported rs) /\
  results rs' =
    (results rs ++
     [trim (layerName l) +:+
      " -> undefined.png (undefinedxundefinedpt with bleed)"])%list /\
  hidden (flags rs') = hidden (flags rs) /\
  exists ev,
    exportLog rs' = (exportLog rs ++ [ev])%list /\
    evLayer ev = i /\
    reqFilename (evRequest ev) = "undefined.png" /\
    reqArtboard (evRequest ev) = (NaN, NaN, NaN, NaN).
Proof.
  intros Hin Hex rs'. subst rs'.
  assert (Hres : resolveSize (trim (layerName l)) = ResolvedInherited).
  { apply existsb_eqb_In in Hin.
    change (inheritedMember (trim (layerName l)) = true) in Hin.
    unfold resolveSize.
    destruct (inheritedMember_names _ Hin) as (-> & _). rewrite Hin.
    reflexivity. }
  destruct (processLayer_inherited exportFile numToString exportFolder
              n i l rs Hres Hex) as (ev & -> & HL & HF & HA).
  simpl. split; [reflexivity|]. split; [reflexivity|].
  split; [reflexivity|]. exists ev. auto.
Qed.

Lemma inherited_member_layer_exported_witness :
  let rs' := processLayer (fun _ _ => true) (fun _ => "n") "out" 1 0
               {| layerName := " toString "; layerItems := [photoInGroup] |}
               {| flags := allLayersVisible; exported := 0; results := [];
                  hiddenItemsTotal := 0; exportLog := [] |} in
  exported rs' = 1%nat /\
  results rs' =
    ["toString -> undefined.png (undefinedxundefinedpt with bleed)"] /\
  hidden (flags rs') = ∅ /\
  exists ev,
    exportLog rs' = [ev] /\
    evLayer ev = 0%nat /\
    reqFilename (evRequest ev) = "undefined.png" /\
    reqArtboard (evRequest ev) = (NaN, NaN, NaN, NaN).
Proof.
  apply (inherited_member_layer_exported (fun _ _ => true) (fun _ => "n") "out"
           1 0 {| layerName := " toString "; layerItems := [photoInGroup] |}
           {| flags := allLayersVisible; exported := 0; results := [];
              hiddenItemsTotal := 0; exportLog := [] |}).
  - simpl. tauto.
  - split.
    + apply (bool_decide_unpack _). vm_compute. exact I.
    + exists photoInGroup, (0, 4, 4, 0)%Q.
      split; [left; reflexivity|]. split; [reflexivity|].
      split; reflexivity.
Defined.

Section HiddenCount.

Variable exportFile : docState -> exportRequest -> bool.
Variable numToString : number -> string.
Variable exportFolder : string.



End HiddenCount.


Section RenderStatus.

Variable exportFile exportFile' : docState -> exportRequest -> bool.
Variable numToString : number -> string.
Variable exportFolder : string.

Lemma processLayer_sameReport (n i : nat) (l : layer) (rs rs' : loopVars) :
  sameReport rs rs' ->
  sameReport (processLayer exportFile numToString exportFolder n i l rs)
             (processLayer exportFile' numToString exportFolder n i l rs').
Proof.
  intros (H1 & H2 & H3 & H4 & H5). unfold processLayer, exportResolved.
  destruct (resolveSize (trim (layerName l))) as [out bw bh| | |].
  - rewrite <- H4. cbv zeta.
    destruct (getLayerBounds l _) as [[[[c0 c1] c2] c3]|];
      unfold sameReport; simpl; rewrite ?map_app; simpl;
      rewrite H1, H2, H3, H5; repeat split; reflexivity.
  - rewrite <- H4. cbv zeta.
    destruct (getLayerBounds l _) as [[[[c0 c1] c2] c3]|];
      unfold sameReport; simpl; rewrite ?map_app; simpl;
      rewrite H1, H2, H3, H5; repeat split; reflexivity.
  - unfold sameReport. simpl. rewrite H2. repeat split; assumption.
  - repeat split; assumption.
Qed.

Lemma layerLoop_sameReport (n : nat) (rest : list layer) : forall i rs rs',
  sameReport rs rs' ->
  sameReport (layerLoop exportFile numToString exportFolder n i rest rs)
             (layerLoop exportFile' numToString exportFolder n i rest rs').
Proof.
  induction rest as [|l rest IH]; intros i rs rs' H; simpl; [exact H|].
  apply IH, processLayer_sameReport, H.
Qed.

End RenderStatus.

(** X19. What a run reports does not depend on the status the renderer
    returns nor on which layers were visible before: two runs over the same
    document with the same hidden items return the same counts and outcome
    lines and make the same export requests for the same layers, with the
    same items hidden at each call.  In particular a layer whose render
    failed is counted and listed as exported. *)
Theorem exportByLayers_ignores_render_status
    (exportFile exportFile' : docState -> exportRequest -> bool)
    (numToString : number -> string) (exportFolder : string)
    (doc : document) (s s' : docState) :
  hidden s = hidden s' ->
  let r := exportByLayers exportFile numToString exportFolder doc s in
  let r' := exportByLayers exportFile' numToString exportFolder doc s' in
  retExported r = retExported r' /\
  retHiddenItems r = retHiddenItems r' /\
  retDetails r = retDetails r' /\
  alerted r = alerted r' /\
  map (fun ev => (evLayer ev, evRequest ev, hidden (evFlags ev))) (exportCalls r) =
  map (fun ev => (evLayer ev, evRequest ev, hidden (evFlags ev))) (exportCalls r').
Proof.
  intros Hh r r'. subst r r'. unfold exportByLayers. simpl.
  destruct (layerLoop_sameReport exportFile exportFile' numToString exportFolder
              (length doc) doc 0
              {| flags := s; exported := 0; results := [];
                 hiddenItemsTotal := 0; exportLog := [] |}
              {| flags := s'; exported := 0; results := [];
                 hiddenItemsTotal := 0; exportLog := [] |})
    as (H1 & H2 & H3 & _ & H5).
  { unfold sameReport. simpl. repeat split; auto. }
  rewrite H1, H2, H3, H5. repeat split; reflexivity.
Qed.

Lemma exportByLayers_ignores_render_status_witness :
  retExported (exportByLayers (fun _ _ => true) (fun _ => "n") "out"
                 fourLayerDoc allLayersVisible) =
  retExported (exportByLayers (fun _ _ => false) (fun _ => "n") "out"
                 fourLayerDoc {| visible := ∅; hidden := ∅ |}) /\
  retDetails (exportByLayers (fun _ _ => true) (fun _ => "n") "out"
                fourLayerDoc allLayersVisible) =
  retDetails (exportByLayers (fun _ _ => false) (fun _ => "n") "out"
                fourLayerDoc {| visible := ∅; hidden := ∅ |}).
Proof.
  destruct (exportByLayers_ignores_render_status
              (fun _ _ => true) (fun _ _ => false) (fun _ => "n") "out"
              fourLayerDoc allLayersVisible {| visible := ∅; hidden := ∅ |})
    as (H1 & _ & H3 & _); [reflexivity|].
  split; [exact H1|exact H3].
Defined.
